(** * Open Agent IDE: session probe, environment links and variable payloads

    A shallow embedding of the request handlers of the workspace
    orchestration layer:

    - [src/app/api/workspaces/[id]/opencode-session/route.ts]
      (the session discovery probe and its exec-stream demultiplexer),
    - the workspace environment-link handler (PUT /api/workspaces/[id]/environments),
    - the environment update handler (PUT /api/environments/[id]),
    - the client-side consumers of the persisted variables payload.

    JavaScript strings are sequences of UTF-16 code units, buffers are
    sequences of bytes, thrown exceptions are an explicit outcome. *)

From Stdlib Require Import ZArith List Strings.String Strings.Ascii Strings.Byte.
From stdpp Require Import gmap strings list.

Open Scope Z_scope.

(** ** JavaScript strings *)

Module JS.

(** A string value: its UTF-16 code units. *)
Abbreviation jsstring := (list Z).

(** An ASCII literal as a string value. *)
Definition js (s : string) : jsstring :=
  map (fun b => Z.of_N (Byte.to_N b)) (list_byte_of_string s).

(** [WhiteSpace] and [LineTerminator] code units, the ones
    [String.prototype.trim] strips. *)
Definition is_white_space (c : Z) : bool :=
  (c =? 0x09) || (c =? 0x0A) || (c =? 0x0B) || (c =? 0x0C) || (c =? 0x0D)
  || (c =? 0x20) || (c =? 0xA0) || (c =? 0x1680)
  || ((0x2000 <=? c) && (c <=? 0x200A))
  || (c =? 0x2028) || (c =? 0x2029) || (c =? 0x202F) || (c =? 0x205F)
  || (c =? 0x3000) || (c =? 0xFEFF).

Fixpoint trimStart (s : jsstring) : jsstring :=
  match s with
  | c :: s' => if is_white_space c then trimStart s' else s
  | [] => []
  end.

Definition trimEnd (s : jsstring) : jsstring :=
  reverse (trimStart (reverse s)).

(** [s.trim()] *)
Definition trim (s : jsstring) : jsstring := trimEnd (trimStart s).

(** [s.startsWith(p)] *)
Fixpoint startsWith (p s : jsstring) : bool :=
  match p, s with
  | [], _ => true
  | a :: p', b :: s' => (a =? b) && startsWith p' s'
  | _ :: _, [] => false
  end.

(** Truthiness of a string: [!s] holds exactly for the empty string. *)
Definition truthy (s : jsstring) : bool :=
  match s with [] => false | _ :: _ => true end.

End JS.

Export JS.

(** ** Buffers *)

Module Buffer.

Abbreviation Buffer := (list byte).

Definition byte_val (b : byte) : Z := Z.of_N (Byte.to_N b).

Definition length (b : Buffer) : Z := Z.of_nat (List.length b).

(** [buf[i]] for an index inside the buffer (0 stands for [undefined]
    outside, which the callers below exclude by their bounds checks). *)
Definition at_ (b : Buffer) (i : Z) : Z :=
  if i <? 0 then 0 else
  match b !! Z.to_nat i with
  | Some x => byte_val x
  | None => 0
  end.

(** [buf.readUInt32BE(offset)]: four bytes, most significant first. *)
Definition readUInt32BE (b : Buffer) (offset : Z) : Z :=
  Z.lor (Z.shiftl (at_ b offset) 24)
    (Z.lor (Z.shiftl (at_ b (offset + 1)) 16)
       (Z.lor (Z.shiftl (at_ b (offset + 2)) 8) (at_ b (offset + 3)))).

Definition clamp (len i : Z) : Z := Z.max 0 (Z.min len i).

(** [buf.slice(start, end)] for non-negative indices: both are clamped to
    the buffer, an empty range gives an empty buffer. *)
Definition slice (b : Buffer) (start end_ : Z) : Buffer :=
  let s := clamp (length b) start in
  let e := clamp (length b) end_ in
  take (Z.to_nat (e - s)) (drop (Z.to_nat s) b).

(** [buf.slice(start)] *)
Definition slice_from (b : Buffer) (start : Z) : Buffer :=
  slice b start (length b).

(** *** [buf.toString('utf8')]

    The decoder replaces every maximal ill-formed subsequence by U+FFFD
    and produces UTF-16 code units. *)

Record Utf8State := {
  needed : nat;      (* continuation bytes still expected *)
  code_point : Z;
  lower : Z;         (* bounds for the next continuation byte *)
  upper : Z
}.

Definition utf8_initial : Utf8State :=
  {| needed := 0; code_point := 0; lower := 0x80; upper := 0xBF |}.

Definition utf16_of_code_point (cp : Z) : jsstring :=
  if cp <? 0x10000 then [cp]
  else let v := cp - 0x10000 in
       [0xD800 + Z.shiftr v 10; 0xDC00 + Z.land v 0x3FF].

Definition replacement : Z := 0xFFFD.

(** A byte read while no sequence is open. *)
Definition utf8_lead (b : Z) : jsstring * Utf8State :=
  if b <=? 0x7F then ([b], utf8_initial)
  else if (0xC2 <=? b) && (b <=? 0xDF) then
    ([], {| needed := 1; code_point := Z.land b 0x1F; lower := 0x80; upper := 0xBF |})
  else if (0xE0 <=? b) && (b <=? 0xEF) then
    ([], {| needed := 2; code_point := Z.land b 0xF;
            lower := if b =? 0xE0 then 0xA0 else 0x80;
            upper := if b =? 0xED then 0x9F else 0xBF |})
  else if (0xF0 <=? b) && (b <=? 0xF4) then
    ([], {| needed := 3; code_point := Z.land b 0x7;
            lower := if b =? 0xF0 then 0x90 else 0x80;
            upper := if b =? 0xF4 then 0x8F else 0xBF |})
  else ([replacement], utf8_initial).

(** A byte read while a sequence is open: either it continues the
    sequence, or the sequence is replaced and the byte is read again as a
    lead byte. *)
Definition utf8_step (st : Utf8State) (b : Z) : jsstring * Utf8State :=
  match needed st with
  | O => utf8_lead b
  | S n =>
      if (lower st <=? b) && (b <=? upper st) then
        let cp := Z.lor (Z.shiftl (code_point st) 6) (Z.land b 0x3F) in
        match n with
        | O => (utf16_of_code_point cp, utf8_initial)
        | S _ => ([], {| needed := n; code_point := cp; lower := 0x80; upper := 0xBF |})
        end
      else
        let '(out, st') := utf8_lead b in (replacement :: out, st')
  end.

Fixpoint utf8_decode (st : Utf8State) (bs : Buffer) : jsstring :=
  match bs with
  | [] => match needed st with O => [] | S _ => [replacement] end
  | b :: bs' =>
      let '(out, st') := utf8_step st (byte_val b) in
      out ++ utf8_decode st' bs'
  end.

Definition toString_utf8 (b : Buffer) : jsstring := utf8_decode utf8_initial b.

End Buffer.

(** ** The exec-stream demultiplexer ([execAndParse], lines 99-113) *)

Module Demux.

Import Buffer.

(** The loop [for (let i = 0; i < rawOutput.length; ) { ... }].  Each
    iteration advances [i] by at least 8, so [fuel] bounds the number of
    iterations; [None] is "out of fuel". *)
Fixpoint parse_loop (fuel : nat) (rawOutput : Buffer) (i : Z) (output : jsstring)
  : option jsstring :=
  match fuel with
  | O => None
  | S fuel' =>
      if i <? Buffer.length rawOutput then
        if i + 8 <=? Buffer.length rawOutput then
          let size := readUInt32BE rawOutput (i + 4) in
          let content := slice rawOutput (i + 8) (i + 8 + size) in
          parse_loop fuel' rawOutput (i + 8 + size) (output ++ toString_utf8 content)
        else
          Some (output ++ toString_utf8 (slice_from rawOutput i))
      else Some output
  end.

(** The text [execAndParse] returns for the collected stream
    [rawOutput = Buffer.concat(chunks)]. *)
Definition parse (rawOutput : Buffer) : option jsstring :=
  option_map trim (parse_loop (S (List.length rawOutput)) rawOutput 0 []).

End Demux.

(** ** Thrown exceptions, the store and the handler monad *)

Inductive JsError :=
| EngineError (msg : string)    (* raised by the container-engine client *)
| SyntaxError                   (* JSON.parse on invalid text *)
| TypeError
| RequestError.                 (* request.json() on an unreadable body *)

Inductive Outcome (A : Type) :=
| Returns (a : A)
| Throws (e : JsError).
Arguments Returns {A} a.
Arguments Throws {A} e.

#[global] Instance Outcome_ret : MRet Outcome := fun A a => Returns a.
#[global] Instance Outcome_bind : MBind Outcome := fun A B f o =>
  match o with
  | Returns a => f a
  | Throws e => Throws e
  end.

(** [try { body } catch (e) { handler(e) }] on values. *)
Definition catch_outcome {A} (body : Outcome A) (handler : JsError -> Outcome A) : Outcome A :=
  match body with
  | Returns a => Returns a
  | Throws e => handler e
  end.

Abbreviation Id := (list Z) (only parsing).

Module Store.

Record Workspace := {
  ws_id : Id;
  ws_userId : Id;
  ws_name : jsstring;
  ws_status : jsstring
}.

Record Environment := {
  env_id : Id;
  env_userId : Id;
  env_name : jsstring;
  env_description : option jsstring;
  env_variables : jsstring        (* JSON text *)
}.

(** A row of the workspace-environment link table. *)
Record WorkspaceEnvironment := {
  workspaceId : Id;
  environmentId : Id
}.

(** The tables, each in the order in which the store returns its rows. *)
Record Db := {
  workspaces : list Workspace;
  environments : list Environment;
  workspaceEnvironments : list WorkspaceEnvironment
}.

#[global] Instance Workspace_eq_dec : EqDecision Workspace.
Proof. solve_decision. Defined.
#[global] Instance Environment_eq_dec : EqDecision Environment.
Proof. solve_decision. Defined.
#[global] Instance WorkspaceEnvironment_eq_dec : EqDecision WorkspaceEnvironment.
Proof. solve_decision. Defined.

(** [prisma.workspace.findFirst / findUnique({ where: { id, userId } })] *)
Definition workspace_find (db : Db) (id userId : Id) : option Workspace :=
  List.find (fun w => bool_decide (ws_id w = id /\ ws_userId w = userId)) (workspaces db).

(** [prisma.environment.findFirst({ where: { id, userId } })] *)
Definition environment_find (db : Db) (id userId : Id) : option Environment :=
  List.find (fun e => bool_decide (env_id e = id /\ env_userId e = userId)) (environments db).

(** [prisma.environment.findMany({ where: { id: { in: ids }, userId } })]:
    the matching rows, in the table's order. *)
Definition environment_findMany (db : Db) (ids : list Id) (userId : Id) : list Environment :=
  filter (fun e => env_id e ∈ ids /\ env_userId e = userId) (environments db).

(** [prisma.workspaceEnvironment.deleteMany({ where: { workspaceId } })] *)
Definition workspaceEnvironment_deleteMany (db : Db) (wsId : Id) : Db :=
  {| workspaces := workspaces db;
     environments := environments db;
     workspaceEnvironments := filter (fun l => workspaceId l <> wsId) (workspaceEnvironments db) |}.

(** [prisma.workspaceEnvironment.createMany({ data })] *)
Definition workspaceEnvironment_createMany (db : Db) (data : list WorkspaceEnvironment) : Db :=
  {| workspaces := workspaces db;
     environments := environments db;
     workspaceEnvironments := workspaceEnvironments db ++ data |}.

(** The link rows of one workspace, in table order. *)
Definition links_of (db : Db) (wsId : Id) : list WorkspaceEnvironment :=
  filter (fun l => workspaceId l = wsId) (workspaceEnvironments db).

End Store.

Export Store.

(** The two commands the probe runs in the container with [sh -c]: the
    [sqlite3] query for the id of the most recently created session (its
    errors discarded, an empty line printed when it fails), and the
    [find] for [ses_*] directories under the storage root, first hit,
    base name. *)
Inductive ExecCmd :=
| SqliteCmd
| FindCmd.

(** What a handler does to the outside world, in order. *)
Inductive Event :=
| ContainerExec (container : jsstring) (cmd : ExecCmd)   (* container.exec({ Cmd, ... }) *)
| ExecStart (container : jsstring) (cmd : ExecCmd)       (* exec.start({ Detach: false }) *)
| SyncCall (wsId : Id) (envs : list Environment)         (* syncEnvironmentToWorkspaces(id, envs) *)
| ConsoleLog (text : jsstring)
| ConsoleError (e : JsError).

#[global] Instance ExecCmd_eq_dec : EqDecision ExecCmd.
Proof. solve_decision. Defined.

Record World := {
  store : Db;
  trace : list Event
}.

(** A handler step: it reads and writes the world and returns or throws. *)
Definition M (A : Type) : Type := World -> Outcome A * World.

#[global] Instance M_ret : MRet M := fun A a w => (Returns a, w).
#[global] Instance M_bind : MBind M := fun A B f m w =>
  match m w with
  | (Returns a, w') => f a w'
  | (Throws e, w') => (Throws e, w')
  end.

Definition emit (ev : Event) : M unit :=
  fun w => (Returns tt, {| store := store w; trace := trace w ++ [ev] |}).

Definition lift {A} (o : Outcome A) : M A := fun w => (o, w).

Definition query {A} (q : Db -> A) : M A := fun w => (Returns (q (store w)), w).

Definition update (u : Db -> Db) : M unit :=
  fun w => (Returns tt, {| store := u (store w); trace := trace w |}).

(** [try { body } catch (error) { handler(error) }] *)
Definition try_catch {A} (body : M A) (handler : JsError -> M A) : M A :=
  fun w =>
    match body w with
    | (Returns a, w') => (Returns a, w')
    | (Throws e, w') => handler e w'
    end.

(** ** Responses *)

(** The fields of an environment a response lists. *)
Record EnvironmentView := {
  view_id : Id;
  view_name : jsstring;
  view_description : option jsstring;
  view_variables : jsstring
}.

Definition view (env : Environment) : EnvironmentView :=
  {| view_id := env_id env; view_name := env_name env;
     view_description := env_description env; view_variables := env_variables env |}.

Inductive Body :=
| ErrorBody (error : string)
| SessionBody (sessionId : option jsstring)
| EnvironmentsBody (envs : list EnvironmentView)
| EnvironmentBody (env : Environment).

Record Response := {
  status : Z;
  body : Body
}.

(** [NextResponse.json(body)] and [NextResponse.json(body, { status })] *)
Definition json (b : Body) : Response := {| status := 200; body := b |}.
Definition json_status (b : Body) (st : Z) : Response := {| status := st; body := b |}.

(** ** The session discovery probe (opencode-session/route.ts) *)

Module Probe.

(** The handle [container.exec] resolves to. *)
Record Exec := {
  exec_container : jsstring;
  exec_cmd : ExecCmd
}.

(** The container engine, as far as the probe uses it: creating an exec
    and starting it either succeed or throw; a started exec delivers the
    chunks of its attached stream until ['end']. *)
Record Engine := {
  container_exec : jsstring -> ExecCmd -> Outcome unit;
  exec_start : Exec -> Outcome (list Buffer.Buffer)
}.

Definition ses_ : jsstring := js "ses_".

Definition is_token_char (c : Z) : bool :=
  ((0x61 <=? c) && (c <=? 0x7A)) || ((0x41 <=? c) && (c <=? 0x5A))
  || ((0x30 <=? c) && (c <=? 0x39)) || (c =? 0x5F).

(** The longest run of [[a-zA-Z0-9_]] at the head of a string. *)
Fixpoint token_run (s : jsstring) : jsstring :=
  match s with
  | c :: s' => if is_token_char c then c :: token_run s' else []
  | [] => []
  end.

(** [/ses_[a-zA-Z0-9_]+/] tried at the head of [s]. *)
Definition match_here (s : jsstring) : option jsstring :=
  if startsWith ses_ s then
    match token_run (drop 4 s) with
    | [] => None
    | run => Some (ses_ ++ run)
    end
  else None.

(** [s.match(/ses_[a-zA-Z0-9_]+/)]: the match at the leftmost position
    where the pattern matches, [None] for [null]. *)
Fixpoint regex_match (s : jsstring) : option jsstring :=
  match s with
  | [] => None
  | _ :: s' =>
      match match_here s with
      | Some m => Some m
      | None => regex_match s'
      end
  end.

(** The text parsed from a collected stream ([Demux.parse] never runs
    out of fuel, see [DemuxFacts.parse_framing]). *)
Definition demux (rawOutput : Buffer.Buffer) : jsstring :=
  default [] (Demux.parse rawOutput).

(** [execAndParse(exec)]: start the exec, collect the chunks until the
    stream ends, parse their concatenation. *)
Definition execAndParse (eng : Engine) (exec : Exec) : M jsstring :=
  emit (ExecStart (exec_container exec) (exec_cmd exec));;
  chunks ← lift (exec_start eng exec);
  mret (demux (concat chunks)).

(** Lines 71-78: the response for the candidate string. *)
Definition respond (sessionId : jsstring) : M Response :=
  let sessionMatch := regex_match sessionId in
  emit (ConsoleLog (js "[opencode-session] Final match: " ++ default (js "null") sessionMatch));;
  match sessionMatch with
  | Some m => mret (json (SessionBody (Some m)))
  | None => mret (json (SessionBody None))
  end.

Definition exec (eng : Engine) (container : jsstring) (cmd : ExecCmd) : M Exec :=
  emit (ContainerExec container cmd);;
  lift (container_exec eng container cmd);;
  mret {| exec_container := container; exec_cmd := cmd |}.

(** Line 54: [!sessionId || !sessionId.startsWith('ses_')] *)
Definition needs_fallback (sessionId : jsstring) : bool :=
  negb (truthy sessionId) || negb (startsWith ses_ sessionId).

(** [docker.getContainer(`opencode-${workspaceId}`)] *)
Definition opencode (wsId : Id) : jsstring := js "opencode-" ++ wsId.

(** Lines 35-78, the body of the [try]. *)
Definition discover (eng : Engine) (wsId : Id) : M Response :=
  let container := opencode wsId in
  sqliteExec ← exec eng container SqliteCmd;
  sessionId ← execAndParse eng sqliteExec;
  emit (ConsoleLog (js "[opencode-session] SQLite result: " ++ sessionId));;
  sessionId ←
    (if needs_fallback sessionId then
       findExec ← exec eng container FindCmd;
       findResult ← execAndParse eng findExec;
       emit (ConsoleLog (js "[opencode-session] find result: " ++ findResult));;
       mret (if truthy findResult && startsWith ses_ findResult
             then findResult else sessionId)
     else mret sessionId);
  respond sessionId.

(** [GET]; [session] is [session?.user?.id] of [await auth()]. *)
Definition GET (eng : Engine) (session : option Id) (wsId : Id) : M Response :=
  match session with
  | None => mret (json_status (ErrorBody "Unauthorized") 401)
  | Some userId =>
      workspace ← query (fun db => workspace_find db wsId userId);
      match workspace with
      | None => mret (json_status (ErrorBody "Workspace not found") 404)
      | Some _ =>
          try_catch (discover eng wsId)
            (fun error =>
               emit (ConsoleError error);;
               mret (json (SessionBody None)))
      end
  end.

End Probe.

(** ** Workspace environment links (PUT /api/workspaces/[id]/environments) *)

Module WorkspaceEnvironments.

(** [body.environmentIds] after [Array.isArray]. *)
Inductive EnvironmentIdsField :=
| NotAnArray
| IdArray (environmentIds : list Id).

(** [syncEnvironmentToWorkspaces] of [@/lib/docker]: what it does inside
    the containers is outside this model, it returns or throws. *)
Definition SyncOracle := Id -> list Environment -> Outcome unit.

Definition syncEnvironmentToWorkspaces (sync : SyncOracle) (wsId : Id)
    (envs : list Environment) : M unit :=
  emit (SyncCall wsId envs);;
  lift (sync wsId envs).

Definition link (wsId envId : Id) : WorkspaceEnvironment :=
  {| workspaceId := wsId; environmentId := envId |}.

(** Lines 87-102: [true] when the request is rejected. *)
Definition ownership_rejected (db : Db) (environmentIds : list Id) (userId : Id) : bool :=
  if 0 <? Z.of_nat (List.length environmentIds) then
    let environments := environment_findMany db environmentIds userId in
    negb (Z.of_nat (List.length environments) =? Z.of_nat (List.length environmentIds))
  else false.

(** Lines 104-144. *)
Definition replace_and_sync (sync : SyncOracle) (params_id userId : Id)
    (environmentIds : list Id) : M Response :=
  update (fun db => workspaceEnvironment_deleteMany db params_id);;
  (if 0 <? Z.of_nat (List.length environmentIds) then
     update (fun db => workspaceEnvironment_createMany db (map (link params_id) environmentIds))
   else mret tt);;
  environmentsToSync ← query (fun db => environment_findMany db environmentIds userId);
  try_catch (syncEnvironmentToWorkspaces sync params_id environmentsToSync)
    (fun syncError => emit (ConsoleError syncError));;
  mret (json (EnvironmentsBody (map view environmentsToSync))).

Definition PUT (sync : SyncOracle) (session : option Id) (params_id : Id)
    (request_json : Outcome EnvironmentIdsField) : M Response :=
  try_catch
    (match session with
     | None => mret (json_status (ErrorBody "Unauthorized") 401)
     | Some userId =>
         body ← lift request_json;
         match body with
         | NotAnArray => mret (json_status (ErrorBody "environmentIds must be an array") 400)
         | IdArray environmentIds =>
             workspace ← query (fun db => workspace_find db params_id userId);
             match workspace with
             | None => mret (json_status (ErrorBody "Workspace not found") 404)
             | Some _ =>
                 rejected ← query (fun db => ownership_rejected db environmentIds userId);
                 if (rejected : bool) then
                   mret (json_status
                           (ErrorBody "One or more environments not found or not owned by user") 403)
                 else replace_and_sync sync params_id userId environmentIds
             end
         end
     end)
    (fun error =>
       emit (ConsoleError error);;
       mret (json_status (ErrorBody "Internal server error") 500)).

End WorkspaceEnvironments.

(** ** The host's JSON and object primitives *)

Class JsonHost := {
  JsonValue : Type;
  JSON_parse : jsstring -> Outcome JsonValue;      (* throws SyntaxError on invalid text *)
  JSON_stringify : JsonValue -> jsstring;
  empty_object : JsonValue;                        (* {} *)
  Object_keys : JsonValue -> Outcome (list jsstring);
  Object_entries : JsonValue -> Outcome (list (jsstring * JsonValue));
  String_of : JsonValue -> jsstring                (* String(value) *)
}.

(** ** Environment update (PUT /api/environments/[id]) *)

Module EnvironmentUpdate.

Import WorkspaceEnvironments.

Section WithHost.

Context `{host : JsonHost}.

(** A body field that is absent, [null] or a string. *)
Inductive Field :=
| Undefined
| Null
| Str (s : jsstring).

(** [body.variables] by [typeof]. *)
Inductive VariablesField :=
| VarUndefined
| VarString (s : jsstring)
| VarObject (o : JsonValue)
| VarOther.

Record UpdateBody := {
  name : Field;
  description : Field;
  variables : VariablesField
}.

(** [prisma.environment.update({ where: { id }, data })]: the row with
    that id is rewritten and returned; the call throws when there is none. *)
Definition environment_update (id : Id) (data : Environment -> Environment) : M Environment :=
  row ← query (fun db => List.find (fun e => bool_decide (env_id e = id)) (environments db));
  match row with
  | None => lift (Throws RequestError)
  | Some e =>
      update (fun db =>
        {| workspaces := workspaces db;
           environments := map (fun e => if bool_decide (env_id e = id) then data e else e)
                             (environments db);
           workspaceEnvironments := workspaceEnvironments db |});;
      mret (data e)
  end.

(** [existingEnvironment.workspaces.map(we => we.workspace)] *)
Definition linked_workspaces (db : Db) (envId : Id) : list Workspace :=
  omap (fun l => List.find (fun w => bool_decide (ws_id w = workspaceId l)) (workspaces db))
    (filter (fun l => environmentId l = envId) (workspaceEnvironments db)).

(** Lines 85-97: [inl] is the 400 response. *)
Definition parse_variables_field (v : VariablesField) : Response + JsonValue :=
  match v with
  | VarUndefined => inr empty_object
  | VarString s =>
      match JSON_parse s with
      | Returns parsed => inr parsed
      | Throws _ => inl (json_status (ErrorBody "Invalid variables format") 400)
      end
  | VarObject o => inr o
  | VarOther => inr empty_object
  end.

(** [name.trim()] when [name] is given; [null.trim()] throws. *)
Definition name_data (f : Field) : Outcome (jsstring -> jsstring) :=
  match f with
  | Undefined => Returns (fun n => n)
  | Null => Throws TypeError
  | Str s => Returns (fun _ => trim s)
  end.

(** [description?.trim()] when [description] is given; for [null] it is
    [undefined], and the store leaves a field given as [undefined] as it is. *)
Definition description_data (f : Field) : option jsstring -> option jsstring :=
  match f with
  | Undefined => fun d => d
  | Null => fun d => d
  | Str s => fun _ => Some (trim s)
  end.

Definition variables_data (v : VariablesField) (parsedVariables : JsonValue)
  : jsstring -> jsstring :=
  match v with
  | VarUndefined => fun old => old
  | _ => fun _ => JSON_stringify parsedVariables
  end.

(** The [data] of the update (lines 102-106). *)
Definition update_data (b : UpdateBody) (parsedVariables : JsonValue)
  : Outcome (Environment -> Environment) :=
  set_name ← name_data (name b);
  mret (fun e =>
          {| env_id := env_id e; env_userId := env_userId e;
             env_name := set_name (env_name e);
             env_description := description_data (description b) (env_description e);
             env_variables := variables_data (variables b) parsedVariables (env_variables e) |}).

(** Lines 109-119. *)
Fixpoint sync_linked (sync : SyncOracle) (linkedWorkspaces : list Workspace)
    (updatedEnvironment : Environment) : M unit :=
  match linkedWorkspaces with
  | [] => mret tt
  | workspace :: rest =>
      (if bool_decide (ws_status workspace = js "running") then
         try_catch (syncEnvironmentToWorkspaces sync (ws_id workspace) [updatedEnvironment])
           (fun syncError => emit (ConsoleError syncError))
       else mret tt);;
      sync_linked sync rest updatedEnvironment
  end.

Definition PUT (sync : SyncOracle) (session : option Id) (params_id : Id)
    (request_json : Outcome UpdateBody) : M Response :=
  try_catch
    (match session with
     | None => mret (json_status (ErrorBody "Unauthorized") 401)
     | Some userId =>
         body ← lift request_json;
         existingEnvironment ← query (fun db => environment_find db params_id userId);
         match existingEnvironment with
         | None => mret (json_status (ErrorBody "Environment not found") 404)
         | Some _ =>
             linkedWorkspaces ← query (fun db => linked_workspaces db params_id);
             match parse_variables_field (variables body) with
             | inl bad_request => mret bad_request
             | inr parsedVariables =>
                 data ← lift (update_data body parsedVariables);
                 updatedEnvironment ← environment_update params_id data;
                 sync_linked sync linkedWorkspaces updatedEnvironment;;
                 mret (json (EnvironmentBody updatedEnvironment))
             end
         end
     end)
    (fun error =>
       emit (ConsoleError error);;
       mret (json_status (ErrorBody "Internal server error") 500)).

End WithHost.

End EnvironmentUpdate.

(** ** Consumers of the persisted variables payload (client components) *)

Module Consumers.

Section WithHost.

Context `{host : JsonHost}.

Record VariableEntry := {
  key : jsstring;
  value : jsstring
}.

(** [parseVariables] (EnvironmentsClient, lines 47-57) *)
Definition parseVariables (variablesJson : jsstring) : Outcome (list VariableEntry) :=
  catch_outcome
    (parsed ← JSON_parse variablesJson;
     entries ← Object_entries parsed;
     mret (map (fun kv => {| key := fst kv; value := String_of (snd kv) |}) entries))
    (fun _ => Returns []).

(** [getVariableCount] (CreateWorkspaceDialog, lines 147-153 and 555-561) *)
Definition getVariableCount (env : Environment) : Outcome Z :=
  catch_outcome
    (parsed ← JSON_parse (env_variables env);
     keys ← Object_keys parsed;
     mret (Z.of_nat (List.length keys)))
    (fun _ => Returns 0).

(** The count shown on an environment card (EnvironmentsClient, line 285):
    [Object.keys(JSON.parse(env.variables || '{}')).length] *)
Definition variableCountLabel (env : Environment) : Outcome Z :=
  parsed ← JSON_parse (if truthy (env_variables env) then env_variables env else js "{}");
  keys ← Object_keys parsed;
  mret (Z.of_nat (List.length keys)).

End WithHost.

End Consumers.

(** ** The environment merge *)

Module Merge.

(** Modelled from the spec: the merge engine, which the repository keeps
    in [@/lib/docker] ([syncEnvironmentToWorkspaces]) and which is not
    among the sources.  "Start from an empty mapping; for each
    environment in the given order, overwrite each key present in its
    variable map." *)
Record NamedEnvironment := {
  name : jsstring;
  variables : gmap jsstring jsstring
}.

(** Overwrite, in [acc], each key present in [vars]. *)
Definition overwrite (acc vars : gmap jsstring jsstring) : gmap jsstring jsstring :=
  map_fold (fun k v acc' => <[k := v]> acc') acc vars.

Definition merge (orderedEnvironments : list NamedEnvironment) : gmap jsstring jsstring :=
  foldl (fun acc env => overwrite acc (variables env)) ∅ orderedEnvironments.

End Merge.


(** ** The selection of environments in the dialogs
       (CreateWorkspaceDialog.tsx: [toggleEnvironment], [resetForm];
        WorkspaceConfigDialog: [handleToggleEnvironment]) *)

Module Dialog.

(** [prev.includes(envId) ? prev.filter((id) => id !== envId) : [...prev, envId]] *)
Definition toggleEnvironment (envId : Id) (prev : list Id) : list Id :=
  if bool_decide (envId ∈ prev)
  then filter (fun id => id <> envId) prev
  else prev ++ [envId].

(** The same updater in the configuration dialog. *)
Definition handleToggleEnvironment (envId : Id) (prev : list Id) : list Id :=
  if bool_decide (envId ∈ prev)
  then filter (fun id => id <> envId) prev
  else prev ++ [envId].

(** [resetForm]: [setSelectedEnvironmentIds([])] *)
Definition resetForm_selection : list Id := [].

(** The selection after a series of clicks, from the reset form. *)
Definition clicks (envIds : list Id) : list Id :=
  foldl (fun prev envId => toggleEnvironment envId prev) resetForm_selection envIds.

End Dialog.

(** ** The variable editor (EnvironmentsClient: [addVariableEntry],
       [removeVariableEntry], [stringifyVariables]) *)

Module VariableEditor.

Import Consumers.

(** [[...variableEntries, { key: '', value: '' }]] *)
Definition addVariableEntry (variableEntries : list VariableEntry) : list VariableEntry :=
  variableEntries ++ [{| key := []; value := [] |}].

(** [array.filter((_, i) => p(i))], the elements counted from [i]. *)
Fixpoint filter_index {A} (p : nat -> bool) (i : nat) (l : list A) : list A :=
  match l with
  | [] => []
  | x :: l' => if p i then x :: filter_index p (S i) l' else filter_index p (S i) l'
  end.

(** [variableEntries.filter((_, i) => i !== index)] *)
Definition removeVariableEntry (index : nat) (variableEntries : list VariableEntry)
  : list VariableEntry :=
  filter_index (fun i => negb (Nat.eqb i index)) 0 variableEntries.

(** An object with string values, as the list of its properties in the
    order in which they were first assigned. *)
Abbreviation JsRecord := (list (jsstring * jsstring)).

(** [obj[k] = v]: an existing property keeps its place. *)
Fixpoint record_set (k v : jsstring) (obj : JsRecord) : JsRecord :=
  match obj with
  | [] => [(k, v)]
  | (k', v') :: obj' =>
      if bool_decide (k' = k) then (k, v) :: obj' else (k', v') :: record_set k v obj'
  end.

(** [obj[k]] *)
Fixpoint record_get (k : jsstring) (obj : JsRecord) : option jsstring :=
  match obj with
  | [] => None
  | (k', v') :: obj' => if bool_decide (k' = k) then Some v' else record_get k obj'
  end.

(** [obj[k] = v] on an object created by [{}], for a string [v]: the
    key [__proto__] names the prototype accessor, whose setter ignores a
    string, so that assignment adds no property. *)
Definition assign (k v : jsstring) (obj : JsRecord) : JsRecord :=
  if bool_decide (k = js "__proto__") then obj else record_set k v obj.

(** The loop of [stringifyVariables] (lines 60-65). *)
Definition variables_object (entries : list VariableEntry) : JsRecord :=
  foldl (fun obj entry =>
           if truthy (trim (key entry))
           then assign (trim (key entry)) (value entry) obj
           else obj)
        [] entries.

Section WithStringify.

(** [JSON.stringify(obj, null, 2)] *)
Variable JSON_stringify_pretty : JsRecord -> jsstring.

Definition stringifyVariables (entries : list VariableEntry) : jsstring :=
  JSON_stringify_pretty (variables_object entries).

End WithStringify.

End VariableEditor.

(** ** Environment creation (POST /api/environments, route.ts lines 35-78) *)

Module EnvironmentCreate.

Section WithHost.

Context `{host : JsonHost}.

Import EnvironmentUpdate.

(** [body.variables] by [typeof]; [VarsObject] is a non-null object, for
    a number or a boolean [VarsOther] keeps whether it is truthy. *)
Inductive CreateVariables :=
| VarsUndefined
| VarsNull
| VarsString (s : jsstring)
| VarsObject (o : JsonValue)
| VarsOther (is_truthy : bool).

(** Line 52: [if (variables)] *)
Definition variables_truthy (v : CreateVariables) : bool :=
  match v with
  | VarsUndefined | VarsNull => false
  | VarsString s => truthy s
  | VarsObject _ => true
  | VarsOther b => b
  end.

Record CreateBody := {
  name : Field;
  description : Field;
  variables : CreateVariables
}.

(** Line 46: [!name || name.trim().length === 0] *)
Definition name_missing (f : Field) : bool :=
  match f with
  | Undefined | Null => true
  | Str s => negb (truthy s) || (Z.of_nat (List.length (trim s)) =? 0)
  end.

(** Lines 51-62: [inl] is the 400 response. *)
Definition parse_variables (v : CreateVariables) : Response + JsonValue :=
  if variables_truthy v then
    match v with
    | VarsString s =>
        match JSON_parse s with
        | Returns parsed => inr parsed
        | Throws _ => inl (json_status (ErrorBody "Invalid variables format") 400)
        end
    | VarsObject o => inr o
    | _ => inr empty_object
    end
  else inr empty_object.

(** [description?.trim()]: an absent description is stored as [null]. *)
Definition description_value (f : Field) : option jsstring :=
  match f with
  | Undefined | Null => None
  | Str s => Some (trim s)
  end.

(** [prisma.environment.create({ data })]; the store gives the row its
    id, [newId]. *)
Definition environment_create (newId : Id) (userId : Id) (name : jsstring)
    (description : option jsstring) (variables : jsstring) : M Environment :=
  let row := {| env_id := newId; env_userId := userId; env_name := name;
                env_description := description; env_variables := variables |} in
  update (fun db =>
    {| workspaces := workspaces db;
       environments := environments db ++ [row];
       workspaceEnvironments := workspaceEnvironments db |});;
  mret row.

Definition POST (newId : Id) (session : option Id) (request_json : Outcome CreateBody)
  : M Response :=
  try_catch
    (match session with
     | None => mret (json_status (ErrorBody "Unauthorized") 401)
     | Some userId =>
         body ← lift request_json;
         if name_missing (name body) then
           mret (json_status (ErrorBody "Environment name is required") 400)
         else
           match parse_variables (variables body) with
           | inl bad_request => mret bad_request
           | inr parsedVariables =>
               let name_trimmed := match name body with
                                   | Str s => trim s
                                   | _ => []
                                   end in
               environment ← environment_create newId userId name_trimmed
                               (description_value (description body))
                               (JSON_stringify parsedVariables);
               mret (json_status (EnvironmentBody environment) 201)
           end
     end)
    (fun error =>
       emit (ConsoleError error);;
       mret (json_status (ErrorBody "Internal server error") 500)).

End WithHost.

End EnvironmentCreate.

(** ** Reading the links of a workspace
       (GET /api/workspaces/[id]/environments, lines 7-53) *)

Module LinkedEnvironments.

(** [workspace.environments] with [include: { environment: true }]: the
    link rows of the workspace, each with the environment it points to. *)
Definition included_environments (db : Db) (wsId : Id) : list Environment :=
  omap (fun l => List.find (fun e => bool_decide (env_id e = environmentId l))
                   (environments db))
    (links_of db wsId).

Definition GET (session : option Id) (params_id : Id) : M Response :=
  try_catch
    (match session with
     | None => mret (json_status (ErrorBody "Unauthorized") 401)
     | Some userId =>
         workspace ← query (fun db => workspace_find db params_id userId);
         match workspace with
         | None => mret (json_status (ErrorBody "Workspace not found") 404)
         | Some _ =>
             environments ← query (fun db => included_environments db params_id);
             mret (json (EnvironmentsBody (map view environments)))
         end
     end)
    (fun error =>
       emit (ConsoleError error);;
       mret (json_status (ErrorBody "Internal server error") 500)).

End LinkedEnvironments.

(** ** One environment (GET and DELETE /api/environments/[id]) *)

Module EnvironmentDetail.

Inductive DetailBody :=
| DetailError (error : string)
| Detail (env : EnvironmentView) (workspaces : list Id)   (* workspaces: [{ workspaceId }] *)
| Success.                                                (* { success: true } *)

Record Reply := {
  reply_status : Z;
  reply_body : DetailBody
}.

(** [environment.workspaces] with [select: { workspaceId: true }] *)
Definition linked_workspace_ids (db : Db) (envId : Id) : list Id :=
  map workspaceId (filter (fun l => environmentId l = envId) (workspaceEnvironments db)).

Definition internal_error : JsError -> M Reply :=
  fun error =>
    emit (ConsoleError error);;
    mret {| reply_status := 500; reply_body := DetailError "Internal server error" |}.

Definition GET (session : option Id) (params_id : Id) : M Reply :=
  try_catch
    (match session with
     | None => mret {| reply_status := 401; reply_body := DetailError "Unauthorized" |}
     | Some userId =>
         environment ← query (fun db => environment_find db params_id userId);
         match environment with
         | None =>
             mret {| reply_status := 404; reply_body := DetailError "Environment not found" |}
         | Some env =>
             ids ← query (fun db => linked_workspace_ids db params_id);
             mret {| reply_status := 200; reply_body := Detail (view env) ids |}
         end
     end)
    internal_error.

Section WithReferentialAction.

(** What the store does to the link rows that point to a deleted
    environment is the referential action of the schema, not of this
    handler (the comment at line 154 expects a cascade); it is a
    parameter here: the link table after the environment [id] is
    deleted. *)
Variable on_delete : Id -> list WorkspaceEnvironment -> list WorkspaceEnvironment.

(** [prisma.environment.delete({ where: { id } })] *)
Definition environment_delete (db : Db) (id : Id) : Db :=
  {| workspaces := workspaces db;
     environments := filter (fun e => env_id e <> id) (environments db);
     workspaceEnvironments := on_delete id (workspaceEnvironments db) |}.

Definition DELETE (session : option Id) (params_id : Id) : M Reply :=
  try_catch
    (match session with
     | None => mret {| reply_status := 401; reply_body := DetailError "Unauthorized" |}
     | Some userId =>
         existingEnvironment ← query (fun db => environment_find db params_id userId);
         match existingEnvironment with
         | None =>
             mret {| reply_status := 404; reply_body := DetailError "Environment not found" |}
         | Some _ =>
             update (fun db => environment_delete db params_id);;
             mret {| reply_status := 200; reply_body := Success |}
         end
     end)
    internal_error.

End WithReferentialAction.

End EnvironmentDetail.

(** ** The session callback of the authentication layer (lines 20-99 of
       the NextAuth configuration), which [auth()] runs for every request *)

Module Auth.

(** The selected columns of the caller's GitHub account row. *)
Record Account := {
  access_token : option jsstring;
  refresh_token : option jsstring;
  expires_at : option Z;            (* seconds since the epoch *)
  providerAccountId : jsstring
}.

(** The JSON answer of the token endpoint, as far as it is read. *)
Record Tokens := {
  new_access_token : option jsstring;
  new_refresh_token : option jsstring;
  expires_in : option Z
}.

(** What the callback adds to [session.user]; for [githubToken], [None]
    is "not assigned" and [Some None] is [null]. *)
Record SessionUser := {
  id : Id;
  githubToken : option (option jsstring);
  githubId : option jsstring
}.

Inductive AuthEvent :=
| RefreshRequest (refresh_token : jsstring)   (* POST .../login/oauth/access_token *)
| AccountUpdate                               (* prisma.account.update *)
| LogError.                                   (* console.error *)

(** Truthiness of a nullable string and of a nullable number. *)
Definition truthy_string (s : option jsstring) : bool :=
  match s with
  | Some s => truthy s
  | None => false
  end.

Definition truthy_number (n : option Z) : bool :=
  match n with
  | Some n => negb (n =? 0)
  | None => false
  end.

(** Line 41: [account.expires_at && account.expires_at < now] *)
Definition isExpired (account : Account) (now : Z) : bool :=
  match expires_at account with
  | Some e => negb (e =? 0) && (e <? now)
  | None => false
  end.

(** Lines 71-77, the [data] of the account update; [now'] is the clock
    read at line 75. *)
Definition refreshed (account : Account) (tokens : Tokens) (now' : Z) : Account :=
  {| access_token := new_access_token tokens;
     refresh_token := if truthy_string (new_refresh_token tokens)
                      then new_refresh_token tokens
                      else refresh_token account;
     expires_at := if truthy_number (expires_in tokens)
                   then Some (now' + default 0 (expires_in tokens))
                   else None;
     providerAccountId := providerAccountId account |}.

(** The callback for a session with a user: [account] is the row found
    at line 25, [now] and [now'] are the clock in seconds at lines 40 and
    75, [refresh] is what the token endpoint answers (the request or the
    reading of its body may throw); the account update itself is taken
    to succeed.  It returns the session's user, the account row
    afterwards and what was done. *)
Definition session_callback (userId : Id) (account : option Account) (now now' : Z)
    (refresh : Outcome Tokens) : SessionUser * option Account * list AuthEvent :=
  match account with
  | None => ({| id := userId; githubToken := None; githubId := None |}, None, [])
  | Some account =>
      let with_token token :=
        {| id := userId; githubToken := Some token;
           githubId := Some (providerAccountId account) |} in
      if isExpired account now && truthy_string (refresh_token account) then
        let request := RefreshRequest (default [] (refresh_token account)) in
        match refresh with
        | Returns tokens =>
            if truthy_string (new_access_token tokens) then
              (with_token (new_access_token tokens),
               Some (refreshed account tokens now'),
               [request; AccountUpdate])
            else (with_token None, Some account, [request; LogError])
        | Throws _ => (with_token None, Some account, [request; LogError])
        end
      else (with_token (access_token account), Some account, [])
  end.

End Auth.
(** * Specification vocabulary *)

(** The world after some more events. *)
Definition extend (w : World) (evs : list Event) : World :=
  {| store := store w; trace := trace w ++ evs |}.

(** A world with the given store and no events yet. *)
Definition fresh (db : Db) : World := {| store := db; trace := [] |}.

(** The events of a run that took the world from [w] to [w']. *)
Definition new_events (w w' : World) : list Event :=
  drop (List.length (trace w)) (trace w').

Module FrameFormat.

Import Buffer.

(** The length field of a header, as a number. *)
Definition be32 (l4 l5 l6 l7 : byte) : Z :=
  byte_val l4 * 2 ^ 24 + byte_val l5 * 2 ^ 16 + byte_val l6 * 2 ^ 8 + byte_val l7.

(** The frame format in the words of the interface description: an
    8-byte header (byte 0 the stream type, bytes 4-7 the big-endian
    payload length) followed by the payload. *)
Record Frame := {
  stream_type : byte;
  payload : Buffer
}.

Definition header (ty r1 r2 r3 l4 l5 l6 l7 : byte) : Buffer :=
  [ty; r1; r2; r3; l4; l5; l6; l7].

(** [framing raw frames tail]: [raw] is the frames [frames] in this order,
    followed by [tail], fewer than 8 bytes that do not make up a header.
    The payload of the last frame may be cut short by the end of the
    stream. *)
Inductive framing : Buffer -> list Frame -> Buffer -> Prop :=
| framing_end (tl : Buffer) :
    (List.length tl < 8)%nat ->
    framing tl [] tl
| framing_frame ty r1 r2 r3 l4 l5 l6 l7 (pl rest : Buffer) fs tl :
    Z.of_nat (List.length pl) = be32 l4 l5 l6 l7 ->
    framing rest fs tl ->
    framing (header ty r1 r2 r3 l4 l5 l6 l7 ++ pl ++ rest)
            ({| stream_type := ty; payload := pl |} :: fs) tl
| framing_truncated ty r1 r2 r3 l4 l5 l6 l7 (pl : Buffer) :
    Z.of_nat (List.length pl) < be32 l4 l5 l6 l7 ->
    framing (header ty r1 r2 r3 l4 l5 l6 l7 ++ pl)
            [{| stream_type := ty; payload := pl |}] [].

(** The text of a list of frames: their payloads, decoded one by one. *)
Definition payload_text (fs : list Frame) : jsstring :=
  concat (map (fun f => toString_utf8 (payload f)) fs).

(** What the interface description asks of a consumer: only the payloads
    of the frames whose stream type is wanted. *)
Definition is_stdout (ty : byte) : bool := byte_val ty =? 1.
Definition is_stderr (ty : byte) : bool := byte_val ty =? 2.
Definition stdout_only (f : Frame) : bool := is_stdout (stream_type f).
Definition stdout_and_stderr (f : Frame) : bool :=
  is_stdout (stream_type f) || is_stderr (stream_type f).

Definition selected_text (want : Frame -> bool) (fs : list Frame) : jsstring :=
  payload_text (List.filter want fs).

End FrameFormat.

Module ProbeRuns.

Import Probe.

(** The session id format in the words of the interface description:
    [ses_] followed by one or more alphanumeric/underscore characters. *)
Definition is_session_id (s : jsstring) : Prop :=
  exists token, s = ses_ ++ token /\ token <> [] /\
                Forall (fun c => is_token_char c = true) token.

(** What one strategy yields: the engine creates the exec, starts it, and
    the collected stream is parsed; either engine call may throw. *)
Definition strategy (eng : Engine) (wsId : Id) (cmd : ExecCmd) : Outcome jsstring :=
  container_exec eng (opencode wsId) cmd;;
  chunks ← exec_start eng {| exec_container := opencode wsId; exec_cmd := cmd |};
  mret (demux (concat chunks)).

(** The engine calls one strategy makes. *)
Definition strategy_events (eng : Engine) (wsId : Id) (cmd : ExecCmd) : list Event :=
  ContainerExec (opencode wsId) cmd ::
  match container_exec eng (opencode wsId) cmd with
  | Returns _ => [ExecStart (opencode wsId) cmd]
  | Throws _ => []
  end.

(** The candidate string line 72 matches against, from what the two
    strategies returned. *)
Definition candidate (sqliteResult findResult : jsstring) : jsstring :=
  if truthy findResult && startsWith ses_ findResult then findResult else sqliteResult.

Definition log_sqlite (s : jsstring) : Event :=
  ConsoleLog (js "[opencode-session] SQLite result: " ++ s).
Definition log_find (s : jsstring) : Event :=
  ConsoleLog (js "[opencode-session] find result: " ++ s).

(** The discovery raises [e]: the primary strategy throws it, or the
    primary strategy returns a string that sends the probe to the
    fallback strategy and that one throws it. *)
Definition discovery_raises (eng : Engine) (wsId : Id) (e : JsError) : Prop :=
  strategy eng wsId SqliteCmd = Throws e \/
  exists s, strategy eng wsId SqliteCmd = Returns s /\
            needs_fallback s = true /\
            strategy eng wsId FindCmd = Throws e.

End ProbeRuns.

Module LinkRuns.

Import WorkspaceEnvironments.

(** The caller owns an environment with this id. *)
Definition owns (db : Db) (userId envId : Id) : Prop :=
  Exists (fun env => env_id env = envId /\ env_userId env = userId) (environments db).

(** Environment ids are the primary key of their table. *)
Definition environment_ids_unique (db : Db) : Prop :=
  NoDup (env_id <$> environments db).

(** Delete-all-then-insert-selected: the link table after all links of
    the workspace are deleted and one link per requested id is inserted,
    in the order of the request. *)
Definition replace_links (db : Db) (wsId : Id) (ids : list Id) : Db :=
  {| workspaces := workspaces db;
     environments := environments db;
     workspaceEnvironments :=
       filter (fun l => workspaceId l <> wsId) (workspaceEnvironments db)
       ++ map (link wsId) ids |}.

(** What a caught sync error leaves in the log. *)
Definition sync_log (o : Outcome unit) : list Event :=
  match o with
  | Returns _ => []
  | Throws e => [ConsoleError e]
  end.

(** A sync that succeeds every time. *)
Definition sync_ok : SyncOracle := fun _ _ => Returns tt.

(** A sync that cannot reach the containers. *)
Definition sync_failing : SyncOracle := fun _ _ => Throws (EngineError "container not running").

Definition forbidden : Response :=
  json_status (ErrorBody "One or more environments not found or not owned by user") 403.

(** What the sync loop of the environment update does for the linked
    workspaces: one call per running workspace, each thrown error logged. *)
Definition linked_sync_events (sync : SyncOracle) (linked : list Workspace)
    (updated : Environment) : list Event :=
  flat_map (fun ws =>
              if bool_decide (ws_status ws = js "running")
              then SyncCall (ws_id ws) [updated] :: sync_log (sync (ws_id ws) [updated])
              else [])
    linked.

(** A run tolerates sync errors: its response and its store are those of
    the run [quiet] in which every sync succeeds, and whenever it
    reached a sync call, it ended with a 200 response and logged the
    error the call threw, if any. *)
Definition tolerates_sync_errors (sync : SyncOracle) (w : World)
    (run quiet : Outcome Response * World) : Prop :=
  fst run = fst quiet /\
  store (snd run) = store (snd quiet) /\
  forall id envs,
    SyncCall id envs ∈ new_events w (snd run) ->
    (exists resp, fst run = Returns resp /\ status resp = 200) /\
    (forall e, sync id envs = Throws e -> ConsoleError e ∈ new_events w (snd run)).

End LinkRuns.

Ltac run_monad :=
  unfold mbind, mret, M_bind, M_ret, Outcome_bind, Outcome_ret,
    emit, lift, query, update, try_catch in *; cbn [store trace fst snd] in *.


(** * Concrete streams, engines and stores *)

Module Examples.

Import Buffer FrameFormat Probe ProbeRuns.

(** A stdout frame carrying a short text. *)
Definition stdout_frame (text : string) : Buffer :=
  header x01 x00 x00 x00 x00 x00 x00
    (default x00 (Byte.of_N (N.of_nat (String.length text))))
  ++ list_byte_of_string text.

(** [01 00 00 00 00 00 00 05] "hello" [02 00 00 00 00 00 00 03] "bad" *)
Definition hello_bad : Buffer :=
  header x01 x00 x00 x00 x00 x00 x00 x05 ++ list_byte_of_string "hello"
  ++ header x02 x00 x00 x00 x00 x00 x00 x03 ++ list_byte_of_string "bad".

Definition hello_bad_frames : list Frame :=
  [ {| stream_type := x01; payload := list_byte_of_string "hello" |};
    {| stream_type := x02; payload := list_byte_of_string "bad" |} ].

(** One frame of stream type 3, neither stdout nor stderr. *)
Definition other_stream : Buffer :=
  header x03 x00 x00 x00 x00 x00 x00 x02 ++ list_byte_of_string "hi".

Definition other_stream_frames : list Frame :=
  [ {| stream_type := x03; payload := list_byte_of_string "hi" |} ].

Definition alice : Id := js "user_alice".
Definition bob : Id := js "user_bob".

Definition ws1 : Workspace :=
  {| ws_id := js "ws1"; ws_userId := alice; ws_name := js "demo";
     ws_status := js "running" |}.

Definition probe_world : World :=
  {| store := {| workspaces := [ws1]; environments := []; workspaceEnvironments := [] |};
     trace := [] |}.

(** An engine that runs both commands; [sqlite] and [find] are what the
    two streams deliver. *)
Definition engine_of (sqlite find : Outcome (list Buffer)) : Engine :=
  {| container_exec := fun _ _ => Returns tt;
     exec_start := fun h => match exec_cmd h with
                            | SqliteCmd => sqlite
                            | FindCmd => find
                            end |}.

(** The engine refuses to create the first exec. *)
Definition engine_refusing_sqlite : Engine :=
  {| container_exec := fun _ cmd => match cmd with
                                    | SqliteCmd => Throws (EngineError "connect ECONNREFUSED")
                                    | FindCmd => Returns tt
                                    end;
     exec_start := fun _ => Returns [stdout_frame "ses_ab12"] |}.

(** The store answers with an empty line, the scan finds a directory. *)
Definition engine_empty_then_found : Engine :=
  engine_of (Returns [stdout_frame EmptyString]) (Returns [stdout_frame "ses_ab12"]).

(** Neither strategy finds anything. *)
Definition engine_nothing : Engine :=
  engine_of (Returns [stdout_frame EmptyString]) (Returns []).

(** The store answers with an id followed by more text. *)
Definition engine_trailing_text : Engine :=
  engine_of (Returns [stdout_frame "ses_ab-cd"]) (Returns []).

Definition env1 : Environment :=
  {| env_id := js "env1"; env_userId := alice; env_name := js "base";
     env_description := None; env_variables := js "{}" |}.
Definition env2 : Environment :=
  {| env_id := js "env2"; env_userId := alice; env_name := js "secrets";
     env_description := Some (js "tokens"); env_variables := js "{}" |}.
Definition env3 : Environment :=
  {| env_id := js "env3"; env_userId := bob; env_name := js "other";
     env_description := None; env_variables := js "{}" |}.

(** Alice has one workspace, linked to her first environment; the
    environment table holds her two environments and one of Bob's. *)
Definition links_db : Db :=
  {| workspaces := [ws1];
     environments := [env1; env2; env3];
     workspaceEnvironments := [WorkspaceEnvironments.link (js "ws1") (js "env1")] |}.

(** A host that knows one JSON text, the empty object. *)
Definition host_of_empty_object : JsonHost :=
  {| JsonValue := unit;
     JSON_parse := fun s => if bool_decide (s = js "{}") then Returns tt else Throws SyntaxError;
     JSON_stringify := fun _ => js "{}";
     empty_object := tt;
     Object_keys := fun _ => Returns [];
     Object_entries := fun _ => Returns [];
     String_of := fun _ => js "[object Object]" |}.

(** An environment whose persisted payload is cut off. *)
Definition env_broken : Environment :=
  {| env_id := js "env4"; env_userId := alice; env_name := js "broken";
     env_description := None; env_variables := js "{" |}.

(** The environments of the merge example: A = {X: "1"} and
    B = {X: "2", Y: "9"}. *)
Definition env_A : Merge.NamedEnvironment :=
  {| Merge.name := js "A"; Merge.variables := {[ js "X" := js "1" ]} |}.
Definition env_B : Merge.NamedEnvironment :=
  {| Merge.name := js "B";
     Merge.variables := <[ js "X" := js "2" ]> {[ js "Y" := js "9" ]} |}.

End Examples.

(** * More vocabulary *)

Module MoreRuns.

(** The sync calls among some events, in order. *)
Definition sync_calls (evs : list Event) : list (Id * list Environment) :=
  omap (fun ev => match ev with
                  | SyncCall wsId envs => Some (wsId, envs)
                  | _ => None
                  end) evs.

(** The workspaces that are running. *)
Definition running (wss : list Workspace) : list Workspace :=
  filter (fun ws => ws_status ws = js "running") wss.

(** The environment table with one more row. *)
Definition with_environment (db : Db) (row : Environment) : Db :=
  {| workspaces := workspaces db;
     environments := environments db ++ [row];
     workspaceEnvironments := workspaceEnvironments db |}.

(** The table after [prisma.environment.update]. *)
Definition updated_store (db : Db) (envId : Id) (data : Environment -> Environment) : Db :=
  {| workspaces := workspaces db;
     environments := map (fun e => if bool_decide (env_id e = envId) then data e else e)
                       (environments db);
     workspaceEnvironments := workspaceEnvironments db |}.

(** A row of the variable editor sets a property when its trimmed key is
    neither empty nor [__proto__]. *)
Definition sets (entry : Consumers.VariableEntry) (k : jsstring) : Prop :=
  trim (Consumers.key entry) = k /\ k <> [] /\ k <> js "__proto__".

(** An event addresses the given container when it is an engine call. *)
Definition targets (ev : Event) (container : jsstring) : Prop :=
  match ev with
  | ContainerExec c _ | ExecStart c _ => c = container
  | _ => True
  end.

End MoreRuns.

Module MoreExamples.

Import Probe Examples.

(** The store answers with the bare prefix, the scan would find a
    directory. *)
Definition engine_bare_prefix : Engine :=
  engine_of (Returns [stdout_frame "ses_"]) (Returns [stdout_frame "ses_ab12"]).

(** A store that removes the links of a deleted environment. *)
Definition cascade (id : Id) (links : list WorkspaceEnvironment) : list WorkspaceEnvironment :=
  filter (fun l => environmentId l <> id) links.

End MoreExamples.
(** * Properties *)

(** ** Big-endian lengths *)

Module BufferFacts.

Import Buffer FrameFormat.

Lemma byte_val_range (b : byte) : 0 <= byte_val b < 256.
Proof.
  unfold byte_val. pose proof (Byte.to_N_bounded b) as Hb.
  split; [apply N2Z.is_nonneg | lia].
Qed.

Lemma lor_shiftl_add (a b n : Z) :
  0 <= n -> 0 <= a -> 0 <= b < 2 ^ n ->
  Z.lor (Z.shiftl a n) b = a * 2 ^ n + b.
Proof.
  intros Hn Ha Hb.
  assert (Hland : Z.land (Z.shiftl a n) b = 0).
  { apply Z.bits_inj'. intros k Hk.
    rewrite Z.land_spec, Z.bits_0.
    destruct (Z_lt_le_dec k n) as [Hlt | Hge].
    - rewrite Z.shiftl_spec_low by lia. reflexivity.
    - destruct (Z.eq_dec b 0) as [-> | Hb0].
      + rewrite Z.bits_0. apply andb_false_r.
      + rewrite (Z.bits_above_log2 b k); [apply andb_false_r | lia |].
        apply Z.log2_lt_pow2; [lia |].
        apply Z.lt_le_trans with (2 ^ n); [lia |].
        apply Z.pow_le_mono_r; lia. }
  rewrite <- Z.lxor_lor by exact Hland.
  rewrite <- Z.add_nocarry_lxor by exact Hland.
  rewrite Z.shiftl_mul_pow2 by lia. reflexivity.
Qed.

Lemma be32_range l4 l5 l6 l7 : 0 <= be32 l4 l5 l6 l7 < 2 ^ 32.
Proof.
  unfold be32.
  pose proof (byte_val_range l4). pose proof (byte_val_range l5).
  pose proof (byte_val_range l6). pose proof (byte_val_range l7). lia.
Qed.

Lemma at_drop (b : Buffer) (i j : nat) :
  at_ b (Z.of_nat i + Z.of_nat j) = at_ (drop i b) (Z.of_nat j).
Proof.
  unfold at_.
  destruct (Z.ltb_spec (Z.of_nat i + Z.of_nat j) 0); [lia |].
  destruct (Z.ltb_spec (Z.of_nat j) 0); [lia |].
  rewrite Nat2Z.id.
  replace (Z.to_nat (Z.of_nat i + Z.of_nat j)) with (i + j)%nat by lia.
  rewrite lookup_drop. reflexivity.
Qed.

Lemma readUInt32BE_header ty r1 r2 r3 l4 l5 l6 l7 (rest : Buffer) :
  readUInt32BE (ty :: r1 :: r2 :: r3 :: l4 :: l5 :: l6 :: l7 :: rest) 4 = be32 l4 l5 l6 l7.
Proof.
  unfold readUInt32BE, be32, at_. cbn [Z.ltb Z.compare Z.add Z.to_nat Pos.to_nat Pos.iter_op Pos.add Pos.succ Nat.add lookup list_lookup].
  simpl.
  pose proof (byte_val_range l4). pose proof (byte_val_range l5).
  pose proof (byte_val_range l6). pose proof (byte_val_range l7).
  rewrite (lor_shiftl_add (byte_val l6) (byte_val l7) 8) by lia.
  rewrite (lor_shiftl_add (byte_val l5) _ 16) by lia.
  rewrite (lor_shiftl_add (byte_val l4) _ 24) by lia.
  lia.
Qed.

Lemma readUInt32BE_drop (b : Buffer) (i : nat) :
  readUInt32BE b (Z.of_nat i + 4) = readUInt32BE (drop i b) 4.
Proof.
  unfold readUInt32BE.
  replace (Z.of_nat i + 4 + 1) with (Z.of_nat i + Z.of_nat 5) by lia.
  replace (Z.of_nat i + 4 + 2) with (Z.of_nat i + Z.of_nat 6) by lia.
  replace (Z.of_nat i + 4 + 3) with (Z.of_nat i + Z.of_nat 7) by lia.
  replace (Z.of_nat i + 4) with (Z.of_nat i + Z.of_nat 4) by lia.
  rewrite !at_drop. reflexivity.
Qed.

End BufferFacts.

(** ** The demultiplexer against the frame format *)

Module DemuxFacts.

Import Buffer FrameFormat BufferFacts Demux.

Lemma slice_take_drop (b : Buffer) (s : nat) (n : Z) :
  (s <= List.length b)%nat -> 0 <= n ->
  slice b (Z.of_nat s) (Z.of_nat s + n) = take (Z.to_nat n) (drop s b).
Proof.
  intros Hs Hn. unfold slice, clamp, Buffer.length.
  rewrite (Z.min_r _ (Z.of_nat s)) by lia.
  rewrite (Z.max_r 0 (Z.of_nat s)) by lia.
  rewrite Nat2Z.id.
  destruct (Z_le_gt_dec (Z.of_nat s + n) (Z.of_nat (List.length b))) as [Hle | Hgt].
  - rewrite Z.min_r by lia. rewrite Z.max_r by lia.
    f_equal. lia.
  - rewrite Z.min_l by lia. rewrite Z.max_r by lia.
    rewrite !take_ge; [reflexivity | |]; rewrite length_drop; lia.
Qed.

Lemma slice_from_drop (b : Buffer) (s : nat) :
  (s <= List.length b)%nat -> slice_from b (Z.of_nat s) = drop s b.
Proof.
  intros Hs. unfold slice_from, Buffer.length.
  replace (Z.of_nat (List.length b))
    with (Z.of_nat s + Z.of_nat (List.length b - s)) by lia.
  rewrite slice_take_drop by lia.
  apply take_ge. rewrite length_drop. lia.
Qed.

(** A buffer with at least 8 bytes starts with a header. *)
Lemma header_split (b : Buffer) :
  (8 <= List.length b)%nat ->
  exists ty r1 r2 r3 l4 l5 l6 l7 body,
    b = header ty r1 r2 r3 l4 l5 l6 l7 ++ body.
Proof.
  intros H.
  do 8 (destruct b as [| ? b]; [simpl in H; lia |]).
  unfold header. simpl. eauto 12.
Qed.

(** The loop, started at byte [i] with enough fuel, reads the frames of
    the rest of the buffer and appends every payload, then the tail. *)
Lemma parse_loop_framing (fuel : nat) (raw : Buffer) :
  forall (i : nat) (output : jsstring),
    (i <= List.length raw)%nat ->
    (List.length raw - i < fuel)%nat ->
    exists fs tl,
      framing (drop i raw) fs tl /\
      parse_loop fuel raw (Z.of_nat i) output
      = Some (output ++ payload_text fs ++ toString_utf8 tl).
Proof.
  induction fuel as [| fuel IH]; intros i output Hi Hfuel; [lia |].
  cbn [parse_loop]. unfold Buffer.length.
  destruct (Z.ltb_spec (Z.of_nat i) (Z.of_nat (List.length raw))) as [Hlt | Hge].
  2: { exists [], []. assert (i = List.length raw) as -> by lia.
       rewrite drop_all. split; [constructor; simpl; lia |].
       simpl. rewrite app_nil_r. reflexivity. }
  destruct (Z.leb_spec (Z.of_nat i + 8) (Z.of_nat (List.length raw))) as [Hhdr | Hshort].
  2: { exists [], (drop i raw). split.
       - constructor. rewrite length_drop. lia.
       - rewrite slice_from_drop by lia. reflexivity. }
  destruct (header_split (drop i raw)) as (ty & r1 & r2 & r3 & l4 & l5 & l6 & l7 & body & Hsplit).
  { rewrite length_drop. lia. }
  assert (Hbody : body = drop (i + 8) raw).
  { rewrite <- drop_drop, Hsplit. reflexivity. }
  assert (Hsize : readUInt32BE raw (Z.of_nat i + 4) = be32 l4 l5 l6 l7).
  { rewrite readUInt32BE_drop, Hsplit. apply readUInt32BE_header. }
  rewrite Hsize.
  pose proof (be32_range l4 l5 l6 l7) as HL.
  set (L := be32 l4 l5 l6 l7) in *.
  replace (Z.of_nat i + 8) with (Z.of_nat (i + 8)) by lia.
  rewrite slice_take_drop by lia.
  rewrite <- Hbody.
  assert (Hlen : List.length body = (List.length raw - (i + 8))%nat).
  { rewrite Hbody, length_drop. reflexivity. }
  destruct (Z_le_gt_dec L (Z.of_nat (List.length body))) as [Hfull | Htrunc].
  - (* the whole payload is there *)
    destruct (IH (i + 8 + Z.to_nat L)%nat (output ++ toString_utf8 (take (Z.to_nat L) body)))
      as (fs & tl & Hfs & Hrun); [lia | lia |].
    replace (Z.of_nat (i + 8) + L) with (Z.of_nat (i + 8 + Z.to_nat L)) by lia.
    rewrite Hrun.
    exists ({| stream_type := ty; payload := take (Z.to_nat L) body |} :: fs), tl.
    split.
    + rewrite Hsplit.
      rewrite <- (take_drop (Z.to_nat L) body) at 1.
      apply framing_frame.
      * rewrite length_take. fold L. lia.
      * rewrite Hbody, drop_drop. exact Hfs.
    + unfold payload_text. cbn [map concat payload].
      rewrite <- !app_assoc. reflexivity.
  - (* the stream ends inside the payload *)
    rewrite take_ge by lia.
    destruct fuel as [| fuel']; [lia |].
    cbn [parse_loop]. unfold Buffer.length.
    destruct (Z.ltb_spec (Z.of_nat (i + 8) + L) (Z.of_nat (List.length raw))); [lia |].
    exists [{| stream_type := ty; payload := body |}], [].
    split.
    + rewrite Hsplit. apply framing_truncated. fold L. lia.
    + unfold payload_text. cbn [map concat payload].
      rewrite !app_nil_r. reflexivity.
Qed.

(** The decomposition into frames is unique. *)
Lemma framing_functional (raw : Buffer) fs tl :
  framing raw fs tl -> forall fs' tl', framing raw fs' tl' -> fs = fs' /\ tl = tl'.
Proof.
  induction 1 as [tl Htl | ty r1 r2 r3 l4 l5 l6 l7 pl rest fs tl Hpl Hrest IH
                 | ty r1 r2 r3 l4 l5 l6 l7 pl Hpl];
    intros fs' tl' H'.
  - inversion H'; subst; [split; reflexivity | simpl in Htl; lia | simpl in Htl; lia].
  - inversion H'; subst.
    + match goal with H : (List.length _ < 8)%nat |- _ => simpl in H; lia end.
    + match goal with
      | Hpl' : Z.of_nat (List.length ?pl') = _, Hrest' : framing ?rest' _ _,
        Heq : ?pl' ++ ?rest' = pl ++ rest |- _ =>
          assert (Hsame : pl' = pl);
          [ apply (f_equal (take (List.length pl))) in Heq;
            rewrite take_app_length in Heq;
            assert (List.length pl' = List.length pl) as Hl by lia;
            rewrite <- Hl, take_app_length in Heq; exact Heq
          | subst pl'; apply app_inv_head in Heq; subst rest';
            destruct (IH _ _ Hrest') as [-> ->]; split; reflexivity ]
      end.
    + match goal with
      | Hlt : Z.of_nat (List.length (pl ++ rest)) < _ |- _ =>
          rewrite length_app in Hlt; lia
      end.
  - inversion H'; subst.
    + match goal with H : (List.length _ < 8)%nat |- _ => simpl in H; lia end.
    + match goal with
      | Hpl' : Z.of_nat (List.length ?pl') = _ |- _ =>
          rewrite length_app in Hpl; lia
      end.
    + split; reflexivity.
Qed.

(** [parse] never runs out of fuel. *)
Lemma parse_framing (raw : Buffer) :
  exists fs tl,
    framing raw fs tl /\
    parse raw = Some (trim (payload_text fs ++ toString_utf8 tl)).
Proof.
  destruct (parse_loop_framing (S (List.length raw)) raw 0 []) as (fs & tl & Hfs & Hrun);
    [lia | lia |].
  exists fs, tl. split; [exact Hfs |].
  unfold parse. change (Z.of_nat 0) with 0 in Hrun. rewrite Hrun. reflexivity.
Qed.

Lemma hello_bad_framing : framing Examples.hello_bad Examples.hello_bad_frames [].
Proof.
  unfold Examples.hello_bad, Examples.hello_bad_frames.
  apply framing_frame; [reflexivity |].
  rewrite <- (app_nil_r (list_byte_of_string "bad")).
  apply framing_frame; [reflexivity |].
  apply framing_end. simpl. lia.
Qed.

Lemma other_stream_framing : framing Examples.other_stream Examples.other_stream_frames [].
Proof.
  unfold Examples.other_stream, Examples.other_stream_frames.
  rewrite <- (app_nil_r (list_byte_of_string "hi")).
  apply framing_frame; [reflexivity |].
  apply framing_end. simpl. lia.
Qed.

(** C1 (as the code has it).  Every raw exec-stream buffer splits, in
    exactly one way, into frames of an 8-byte header (bytes 4-7 the
    big-endian unsigned 32-bit payload length) followed by the payload,
    the last payload possibly cut short, and a tail of fewer than 8 bytes;
    the demultiplexer returns, trimmed, the decoded payloads of all these
    frames in frame order, whatever their stream-type byte, followed by
    the decoded tail.  On [01 00 00 00 00 00 00 05] "hello"
    [02 00 00 00 00 00 00 03] "bad" it returns "hellobad". *)
Theorem execAndParse_concatenates_every_frame :
  (forall raw : Buffer,
     exists fs tl,
       framing raw fs tl /\
       (forall fs' tl', framing raw fs' tl' -> fs' = fs /\ tl' = tl) /\
       parse raw = Some (trim (payload_text fs ++ toString_utf8 tl)) /\
       Probe.demux raw = trim (payload_text fs ++ toString_utf8 tl)) /\
  parse Examples.hello_bad = Some (js "hellobad").
Proof.
  split; [| reflexivity].
  intros raw. destruct (parse_framing raw) as (fs & tl & Hfs & Hparse).
  exists fs, tl.
  split; [exact Hfs |]. split; [| split].
  - intros fs' tl' H'.
    destruct (framing_functional _ _ _ Hfs _ _ H') as [-> ->]. split; reflexivity.
  - exact Hparse.
  - unfold Probe.demux. rewrite Hparse. reflexivity.
Qed.

(** C1, the claim as stated, fails: a frame whose stream type is neither
    stdout nor stderr is not ignored, and there is no stdout-only
    extraction: the stderr payload of the example is kept. *)
Lemma execAndParse_keeps_every_stream_type :
  framing Examples.other_stream Examples.other_stream_frames [] /\
  parse Examples.other_stream = Some (js "hi") /\
  parse Examples.other_stream
  <> Some (trim (selected_text stdout_and_stderr Examples.other_stream_frames
                 ++ toString_utf8 [])) /\
  framing Examples.hello_bad Examples.hello_bad_frames [] /\
  selected_text stdout_only Examples.hello_bad_frames = js "hello" /\
  parse Examples.hello_bad
  <> Some (trim (selected_text stdout_only Examples.hello_bad_frames
                 ++ toString_utf8 [])).
Proof.
  split; [exact other_stream_framing |].
  split; [reflexivity |].
  split; [vm_compute; discriminate |].
  split; [exact hello_bad_framing |].
  split; [reflexivity |].
  vm_compute. discriminate.
Qed.

End DemuxFacts.

(** ** The session-id pattern *)

Module PatternFacts.

Import Probe ProbeRuns.

Lemma startsWith_prefix (p s : jsstring) :
  startsWith p s = true <-> exists rest, s = p ++ rest.
Proof.
  revert s. induction p as [| a p IH]; intros s; simpl.
  - split; [eauto | reflexivity].
  - destruct s as [| b s].
    + split; [discriminate | intros [rest H]; discriminate].
    + rewrite andb_true_iff, Z.eqb_eq, IH. split.
      * intros [-> [rest ->]]. eauto.
      * intros [rest H]. injection H as -> ->. eauto.
Qed.

Lemma token_run_prefix (s : jsstring) :
  exists rest, s = token_run s ++ rest /\
               Forall (fun c => is_token_char c = true) (token_run s).
Proof.
  induction s as [| c s (rest & Hs & Hall)]; simpl.
  - exists []. split; [reflexivity | constructor].
  - destruct (is_token_char c) eqn:Hc.
    + exists rest. split; [simpl; congruence | constructor; assumption].
    + exists (c :: s). split; [reflexivity | constructor].
Qed.

Lemma token_run_app (t rest : jsstring) :
  Forall (fun c => is_token_char c = true) t ->
  exists more, token_run (t ++ rest) = t ++ more.
Proof.
  induction 1 as [| c t Hc _ (more & IH)]; simpl.
  - eauto.
  - rewrite Hc, IH. eauto.
Qed.

Lemma token_run_all (t : jsstring) :
  Forall (fun c => is_token_char c = true) t -> token_run t = t.
Proof.
  induction 1 as [| c t Hc _ IH]; simpl; [reflexivity |].
  rewrite Hc, IH. reflexivity.
Qed.

Lemma drop_ses_ (rest : jsstring) : drop 4 (ses_ ++ rest) = rest.
Proof. reflexivity. Qed.

Lemma match_here_sound (s m : jsstring) :
  match_here s = Some m -> is_session_id m /\ exists post, s = m ++ post.
Proof.
  unfold match_here. destruct (startsWith ses_ s) eqn:Hs; [| discriminate].
  apply startsWith_prefix in Hs as [rest ->]. rewrite drop_ses_.
  destruct (token_run_prefix rest) as (post & Hrest & Hall).
  destruct (token_run rest) as [| c run] eqn:Hrun; [discriminate |].
  intros [= <-]. split.
  - exists (c :: run). split; [reflexivity | split; [discriminate | exact Hall]].
  - exists post. rewrite Hrest at 1. reflexivity.
Qed.

Lemma match_here_complete (m post : jsstring) :
  is_session_id m -> exists m', match_here (m ++ post) = Some m'.
Proof.
  intros (token & -> & Hne & Hall). unfold match_here.
  rewrite <- app_assoc.
  assert (startsWith ses_ (ses_ ++ token ++ post) = true) as ->.
  { apply startsWith_prefix. eauto. }
  rewrite drop_ses_.
  destruct (token_run_app token post Hall) as [more ->].
  destruct token as [| c token]; [congruence |]. simpl. eauto.
Qed.

Lemma match_here_exact (s : jsstring) :
  is_session_id s -> match_here s = Some s.
Proof.
  intros (token & -> & Hne & Hall). unfold match_here.
  assert (startsWith ses_ (ses_ ++ token) = true) as ->.
  { apply startsWith_prefix. eauto. }
  rewrite drop_ses_, (token_run_all _ Hall).
  destruct token; [congruence | reflexivity].
Qed.

Lemma regex_match_sound (s m : jsstring) :
  regex_match s = Some m ->
  is_session_id m /\ exists pre post, s = pre ++ m ++ post.
Proof.
  induction s as [| c s IH]; simpl; [discriminate |].
  destruct (match_here (c :: s)) as [m' |] eqn:Hhere.
  - intros [= ->]. apply match_here_sound in Hhere as [Hid [post ->]].
    split; [exact Hid | exists [], post; reflexivity].
  - intros H. destruct (IH H) as [Hid (pre & post & ->)].
    split; [exact Hid | exists (c :: pre), post; reflexivity].
Qed.

Lemma regex_match_complete (pre m post : jsstring) :
  is_session_id m -> exists m', regex_match (pre ++ m ++ post) = Some m'.
Proof.
  intros Hid. induction pre as [| c pre IH].
  - destruct (match_here_complete m post Hid) as [m' Hm'].
    destruct Hid as (token & -> & _ & _). simpl app in *.
    cbn [regex_match]. rewrite Hm'. eauto.
  - cbn [app regex_match]. destruct (match_here _); eauto.
Qed.

Lemma regex_match_exact (s : jsstring) :
  is_session_id s -> regex_match s = Some s.
Proof.
  intros Hid. pose proof (match_here_exact s Hid) as Hm.
  destruct Hid as (token & -> & _ & _).
  cbn [regex_match app ses_ js] in *. simpl in *. rewrite Hm. reflexivity.
Qed.

End PatternFacts.

(** ** Runs of the session probe *)

Module ProbeFacts.

Import Probe ProbeRuns PatternFacts.

Lemma extend_nil_r w : extend w [] = w.
Proof. destruct w. unfold extend. simpl. rewrite app_nil_r. reflexivity. Qed.

Lemma extend_extend w evs1 evs2 : extend (extend w evs1) evs2 = extend w (evs1 ++ evs2).
Proof. unfold extend. simpl. rewrite app_assoc. reflexivity. Qed.

Lemma strategy_run eng wsId cmd w :
  (exec eng (opencode wsId) cmd ≫= execAndParse eng) w
  = (strategy eng wsId cmd, extend w (strategy_events eng wsId cmd)).
Proof.
  unfold exec, execAndParse, strategy, strategy_events, extend. run_monad.
  destruct (container_exec eng (opencode wsId) cmd) as [[] | e]; cbn [store trace].
  - destruct (exec_start eng _) as [chunks | e]; cbn [store trace];
      rewrite <- app_assoc; reflexivity.
  - reflexivity.
Qed.

Lemma discover_run eng wsId w :
  discover eng wsId w =
  match strategy eng wsId SqliteCmd with
  | Throws e => (Throws e, extend w (strategy_events eng wsId SqliteCmd))
  | Returns s =>
      let w1 := extend w (strategy_events eng wsId SqliteCmd ++ [log_sqlite s]) in
      if needs_fallback s then
        match strategy eng wsId FindCmd with
        | Throws e => (Throws e, extend w1 (strategy_events eng wsId FindCmd))
        | Returns f =>
            respond (candidate s f)
              (extend w1 (strategy_events eng wsId FindCmd ++ [log_find f]))
        end
      else respond s w1
  end.
Proof.
  unfold discover, exec, execAndParse, respond, strategy, strategy_events, extend,
    log_sqlite, log_find, candidate.
  run_monad.
  destruct (container_exec eng (opencode wsId) SqliteCmd) as [[] | e1]; cbn [store trace];
    [| reflexivity].
  destruct (exec_start eng _) as [chunks1 | e1]; cbn [store trace];
    [| rewrite <- ?app_assoc; reflexivity].
  destruct (needs_fallback _); cbn [store trace].
  - destruct (container_exec eng (opencode wsId) FindCmd) as [[] | e2]; cbn [store trace];
      [| rewrite <- ?app_assoc; reflexivity].
    destruct (exec_start eng _) as [chunks2 | e2]; cbn [store trace];
      [| rewrite <- ?app_assoc; reflexivity].
    destruct (regex_match _); rewrite <- ?app_assoc; reflexivity.
  - destruct (regex_match _); rewrite <- ?app_assoc; reflexivity.
Qed.

End ProbeFacts.

(** ** The claims on the session probe *)

Module ProbeClaims.

Import Probe ProbeRuns PatternFacts ProbeFacts Examples.

Lemma GET_run eng userId wsId w ws :
  workspace_find (store w) wsId userId = Some ws ->
  GET eng (Some userId) wsId w =
  match discover eng wsId w with
  | (Returns resp, w') => (Returns resp, w')
  | (Throws e, w') => (Returns (json (SessionBody None)), extend w' [ConsoleError e])
  end.
Proof.
  intros Hws. unfold GET. run_monad. rewrite Hws.
  destruct (discover eng wsId w) as [[resp | e] w']; reflexivity.
Qed.

Lemma respond_run (c : jsstring) (w : World) :
  exists ev,
    respond c w = (Returns (json (SessionBody (regex_match c))), extend w [ev]).
Proof.
  unfold respond, extend. run_monad.
  destruct (regex_match c); eexists; reflexivity.
Qed.

(** C2 (as the code has it).  When the primary strategy returns a string
    that is empty or does not begin with [ses_], the probe goes on to
    the fallback strategy: the creation of the [find] exec follows the
    primary strategy's engine calls and its log line, before any answer
    is produced. *)
Theorem fallback_attempted_after_unusable_primary
    eng userId wsId w ws (sqliteResult : jsstring) :
  workspace_find (store w) wsId userId = Some ws ->
  strategy eng wsId SqliteCmd = Returns sqliteResult ->
  sqliteResult = [] \/ startsWith ses_ sqliteResult = false ->
  exists resp rest,
    GET eng (Some userId) wsId w =
    (Returns resp,
     extend w (strategy_events eng wsId SqliteCmd
               ++ [log_sqlite sqliteResult; ContainerExec (opencode wsId) FindCmd]
               ++ rest)).
Proof.
  intros Hws Hprimary Hbad.
  rewrite (GET_run _ _ _ _ _ Hws), discover_run, Hprimary. cbn zeta.
  assert (needs_fallback sqliteResult = true) as ->.
  { unfold needs_fallback. destruct Hbad as [-> | ->]; [reflexivity |].
    apply orb_true_r. }
  unfold strategy_events at 2 3.
  destruct (strategy eng wsId FindCmd) as [f | e].
  - destruct (respond_run (candidate sqliteResult f)
                (extend (extend w (strategy_events eng wsId SqliteCmd ++ [log_sqlite sqliteResult]))
                   (strategy_events eng wsId FindCmd ++ [log_find f]))) as [ev Hev].
    unfold strategy_events at 2 4 in Hev. rewrite Hev.
    rewrite !extend_extend. do 2 eexists. f_equal. f_equal.
    rewrite <- !app_assoc. cbn [app]. reflexivity.
  - rewrite !extend_extend. do 2 eexists. f_equal. f_equal.
    rewrite <- !app_assoc. cbn [app]. reflexivity.
Qed.

Lemma fallback_attempted_witness :
  exists resp rest,
    GET engine_empty_then_found (Some alice) (js "ws1") probe_world =
    (Returns resp,
     extend probe_world
       (strategy_events engine_empty_then_found (js "ws1") SqliteCmd
        ++ [log_sqlite []; ContainerExec (opencode (js "ws1")) FindCmd]
        ++ rest)).
Proof.
  apply (fallback_attempted_after_unusable_primary
           engine_empty_then_found alice (js "ws1") probe_world ws1 []).
  - reflexivity.
  - reflexivity.
  - left. reflexivity.
Defined.

(** C2, the claim as stated, fails: when the engine throws during the
    primary strategy, the probe answers "no session" at once and the
    fallback strategy is not attempted. *)
Lemma fallback_skipped_when_primary_throws :
  strategy engine_refusing_sqlite (js "ws1") SqliteCmd
  = Throws (EngineError "connect ECONNREFUSED") /\
  strategy engine_refusing_sqlite (js "ws1") FindCmd = Returns (js "ses_ab12") /\
  GET engine_refusing_sqlite (Some alice) (js "ws1") probe_world =
  (Returns (json (SessionBody None)),
   extend probe_world
     [ContainerExec (opencode (js "ws1")) SqliteCmd;
      ConsoleError (EngineError "connect ECONNREFUSED")]) /\
  ~ In (ContainerExec (opencode (js "ws1")) FindCmd)
       (trace (snd (GET engine_refusing_sqlite (Some alice) (js "ws1") probe_world))).
Proof.
  split; [reflexivity |]. split; [reflexivity |]. split; [reflexivity |].
  vm_compute. intros [H | [H | []]]; discriminate.
Qed.

(** C3.  For an existing workspace of the caller, the probe always
    returns a response with status 200 and changes nothing in the store;
    when the engine client throws during either strategy, the error is
    caught and logged and the response carries [sessionId: null]. *)
Theorem probe_never_raises eng userId wsId w ws :
  workspace_find (store w) wsId userId = Some ws ->
  exists resp evs,
    GET eng (Some userId) wsId w = (Returns resp, extend w evs) /\
    status resp = 200 /\
    forall e, discovery_raises eng wsId e ->
              resp = json (SessionBody None) /\ last evs = Some (ConsoleError e).
Proof.
  intros Hws. rewrite (GET_run _ _ _ _ _ Hws), discover_run.
  destruct (strategy eng wsId SqliteCmd) as [s | e1] eqn:Hprimary.
  - cbn zeta. destruct (needs_fallback s) eqn:Hneeds.
    + destruct (strategy eng wsId FindCmd) as [f | e2] eqn:Hfallback.
      * destruct (respond_run (candidate s f)
                    (extend (extend w (strategy_events eng wsId SqliteCmd ++ [log_sqlite s]))
                       (strategy_events eng wsId FindCmd ++ [log_find f]))) as [ev ->].
        rewrite !extend_extend. do 2 eexists. split; [reflexivity |].
        split; [reflexivity |].
        intros e [H | (s' & H1 & _ & H2)]; congruence.
      * rewrite !extend_extend. do 2 eexists. split; [reflexivity |].
        split; [reflexivity |].
        intros e [H | (s' & H1 & _ & H2)]; [congruence |].
        assert (e = e2) as -> by congruence.
        split; [reflexivity |]. rewrite !app_assoc. apply last_snoc.
    + destruct (respond_run s
                  (extend w (strategy_events eng wsId SqliteCmd ++ [log_sqlite s]))) as [ev ->].
      rewrite !extend_extend. do 2 eexists. split; [reflexivity |].
      split; [reflexivity |].
      intros e [H | (s' & H1 & H2 & _)]; congruence.
  - rewrite !extend_extend. do 2 eexists. split; [reflexivity |].
    split; [reflexivity |].
    intros e [H | (s' & H1 & _)]; [| congruence].
    assert (e = e1) as -> by congruence.
    split; [reflexivity |]. apply last_snoc.
Qed.

Lemma probe_never_raises_witness :
  exists resp evs,
    GET engine_refusing_sqlite (Some alice) (js "ws1") probe_world
    = (Returns resp, extend probe_world evs) /\
    status resp = 200 /\
    forall e, discovery_raises engine_refusing_sqlite (js "ws1") e ->
              resp = json (SessionBody None) /\ last evs = Some (ConsoleError e).
Proof.
  apply (probe_never_raises engine_refusing_sqlite alice (js "ws1") probe_world ws1).
  reflexivity.
Defined.

(** C4 (as the code has it).  Whatever the engine does, a session id in
    the probe's response has the exact form [ses_] followed by one or
    more alphanumeric/underscore characters.  For every candidate string
    the answer is a substring of the candidate of that form when there is
    one (the candidate itself when it has that form), and [null] exactly
    when no substring of the candidate has that form. *)
Theorem probe_session_id_form :
  (forall eng session wsId w,
     exists resp w',
       GET eng session wsId w = (Returns resp, w') /\
       match body resp with
       | SessionBody (Some m) => is_session_id m
       | _ => True
       end) /\
  (forall (c : jsstring) (w : World),
     exists r w',
       respond c w = (Returns (json (SessionBody r)), w') /\
       match r with
       | Some m => is_session_id m /\ (exists pre post, c = pre ++ m ++ post) /\
                   (is_session_id c -> m = c)
       | None => forall pre m post, c = pre ++ m ++ post -> ~ is_session_id m
       end).
Proof.
  assert (Hrespond : forall (c : jsstring) (w : World),
     exists r w',
       respond c w = (Returns (json (SessionBody r)), w') /\
       match r with
       | Some m => is_session_id m /\ (exists pre post, c = pre ++ m ++ post) /\
                   (is_session_id c -> m = c)
       | None => forall pre m post, c = pre ++ m ++ post -> ~ is_session_id m
       end).
  { intros c w. destruct (respond_run c w) as [ev Hev].
    exists (regex_match c), (extend w [ev]). split; [exact Hev |].
    destruct (regex_match c) as [m |] eqn:Hm.
    - destruct (regex_match_sound _ _ Hm) as [Hid Hsub].
      split; [exact Hid |]. split; [exact Hsub |].
      intros Hc. rewrite (regex_match_exact c Hc) in Hm. congruence.
    - intros pre m post -> Hid.
      destruct (regex_match_complete pre m post Hid) as [m' Hm']. congruence. }
  split; [| exact Hrespond].
  intros eng session wsId w.
  assert (Hbody : forall c w0, exists resp w',
            respond c w0 = (Returns resp, w') /\
            match body resp with
            | SessionBody (Some m) => is_session_id m
            | _ => True
            end).
  { intros c w0. destruct (Hrespond c w0) as (r & w' & Hr & Hform).
    exists (json (SessionBody r)), w'. split; [exact Hr |].
    cbn [body json]. destruct r as [m |]; [apply Hform | exact I]. }
  destruct session as [userId |]; [| do 2 eexists; split; [reflexivity | exact I]].
  destruct (workspace_find (store w) wsId userId) as [ws |] eqn:Hws.
  2: { unfold GET. run_monad. rewrite Hws. do 2 eexists. split; [reflexivity | exact I]. }
  rewrite (GET_run _ _ _ _ _ Hws), discover_run.
  destruct (strategy eng wsId SqliteCmd) as [s | e1];
    [| do 2 eexists; split; [reflexivity | exact I]].
  cbn zeta. destruct (needs_fallback s).
  - destruct (strategy eng wsId FindCmd) as [f | e2];
      [| do 2 eexists; split; [reflexivity | exact I]].
    destruct (Hbody (candidate s f)
                (extend (extend w (strategy_events eng wsId SqliteCmd ++ [log_sqlite s]))
                   (strategy_events eng wsId FindCmd ++ [log_find f])))
      as (resp & w' & -> & Hform).
    eauto.
  - destruct (Hbody s (extend w (strategy_events eng wsId SqliteCmd ++ [log_sqlite s])))
      as (resp & w' & -> & Hform).
    eauto.
Qed.

(** C4, the claim as stated, fails: the store's answer "ses_ab-cd" is not
    of the session-id form, and the probe returns its substring
    "ses_ab" rather than [null]. *)
Lemma probe_returns_substring :
  strategy engine_trailing_text (js "ws1") SqliteCmd = Returns (js "ses_ab-cd") /\
  ~ is_session_id (js "ses_ab-cd") /\
  fst (GET engine_trailing_text (Some alice) (js "ws1") probe_world)
  = Returns (json (SessionBody (Some (js "ses_ab")))).
Proof.
  split; [reflexivity |]. split; [| reflexivity].
  intros (token & Heq & _ & Hall).
  injection Heq as <-.
  inversion Hall as [| ? ? _ Hrest]; subst.
  inversion Hrest as [| ? ? _ Hrest']; subst.
  inversion Hrest' as [| ? ? Hdash _]; subst.
  discriminate Hdash.
Qed.

(** The probe's examples: an unusable primary answer and a found
    directory; nothing found by either strategy. *)
Example probe_falls_back :
  fst (GET engine_empty_then_found (Some alice) (js "ws1") probe_world)
  = Returns (json (SessionBody (Some (js "ses_ab12")))) /\
  fst (GET engine_nothing (Some alice) (js "ws1") probe_world)
  = Returns (json (SessionBody None)).
Proof. split; reflexivity. Qed.

End ProbeClaims.

(** ** The environment merge *)

Module MergeFacts.

Import Merge.

Lemma overwrite_lookup (acc vars : gmap jsstring jsstring) (k : jsstring) :
  overwrite acc vars !! k =
  match vars !! k with
  | Some v => Some v
  | None => acc !! k
  end.
Proof.
  unfold overwrite.
  apply (map_fold_weak_ind
           (fun r (m : gmap jsstring jsstring) =>
              r !! k = match m !! k with Some v => Some v | None => acc !! k end)).
  - rewrite lookup_empty. reflexivity.
  - intros i x m r _ IH. destruct (decide (i = k)) as [-> | Hne].
    + rewrite !lookup_insert_eq. reflexivity.
    + rewrite !lookup_insert_ne by exact Hne. exact IH.
Qed.

Lemma merge_snoc (envs : list NamedEnvironment) (env : NamedEnvironment) :
  merge (envs ++ [env]) = overwrite (merge envs) (variables env).
Proof. unfold merge. rewrite foldl_app. reflexivity. Qed.

(** C5.  The merge of the empty list is the empty mapping, and for every
    ordered list of environments and every key, the merged value is the
    value given by the last environment of the list that defines the key
    (no later environment defines it), and the key is absent exactly when
    no environment defines it. *)
Theorem merge_last_writer_wins :
  merge [] = ∅ /\
  forall (envs : list NamedEnvironment) (k : jsstring),
    match merge envs !! k with
    | Some v =>
        exists before env after,
          envs = before ++ env :: after /\
          variables env !! k = Some v /\
          Forall (fun later => variables later !! k = None) after
    | None => Forall (fun env => variables env !! k = None) envs
    end.
Proof.
  split; [reflexivity |].
  intros envs k. induction envs as [| env envs IH] using rev_ind.
  - unfold merge. simpl. rewrite lookup_empty. constructor.
  - rewrite merge_snoc, overwrite_lookup.
    destruct (variables env !! k) as [v |] eqn:Hk.
    + exists envs, env, []. split; [reflexivity |]. split; [exact Hk | constructor].
    + destruct (merge envs !! k) as [v |].
      * destruct IH as (before & env' & after & -> & Hdef & Hafter).
        exists before, env', (after ++ [env]).
        split; [rewrite <- app_assoc; reflexivity |].
        split; [exact Hdef |].
        apply Forall_app. split; [exact Hafter | constructor; [exact Hk | constructor]].
      * apply Forall_app. split; [exact IH | constructor; [exact Hk | constructor]].
Qed.

(** The merge example, in both orders. *)
Example merge_A_then_B :
  merge [Examples.env_A; Examples.env_B] !! js "X" = Some (js "2") /\
  merge [Examples.env_A; Examples.env_B] !! js "Y" = Some (js "9") /\
  merge [Examples.env_B; Examples.env_A] !! js "X" = Some (js "1") /\
  merge [Examples.env_B; Examples.env_A] !! js "Y" = Some (js "9").
Proof. repeat split; vm_compute; reflexivity. Qed.

End MergeFacts.

(** ** Runs of the environment-link update *)

Module LinkFacts.

Import WorkspaceEnvironments LinkRuns.

Lemma findMany_ids (db : Db) (ids : list Id) (userId : Id) :
  environment_ids_unique db ->
  NoDup (env_id <$> environment_findMany db ids userId) /\
  forall id, id ∈ (env_id <$> environment_findMany db ids userId) <->
             id ∈ ids /\ owns db userId id.
Proof.
  intros Hpk. unfold environment_findMany, environment_ids_unique in *. split.
  - apply (sublist_NoDup _ (env_id <$> environments db)); [exact Hpk |].
    apply fmap_sublist, sublist_filter.
  - intros id. rewrite list_elem_of_fmap. split.
    + intros (env & -> & Hin). apply list_elem_of_filter in Hin as [[Hid Hown] Hin].
      split; [exact Hid |]. apply Exists_exists. exists env. auto.
    + intros [Hid Hown]. apply Exists_exists in Hown as (env & Hin & <- & Hown).
      exists env. split; [reflexivity |].
      apply list_elem_of_filter. auto.
Qed.

(** The count comparison of lines 96-101 passes exactly when the request
    lists distinct ids, each owned by the caller. *)
Lemma ownership_accepted (db : Db) (ids : list Id) (userId : Id) :
  environment_ids_unique db ->
  ownership_rejected db ids userId = false <->
  NoDup ids /\ forall id, id ∈ ids -> owns db userId id.
Proof.
  intros Hpk. destruct (findMany_ids db ids userId Hpk) as [Hnd Hmem].
  assert (Hsub : (env_id <$> environment_findMany db ids userId) ⊆+ ids).
  { apply NoDup_submseteq; [exact Hnd |]. intros id Hid. apply Hmem in Hid. tauto. }
  pose proof (submseteq_length _ _ Hsub) as Hle. rewrite length_fmap in Hle.
  unfold ownership_rejected.
  destruct (Z.ltb_spec 0 (Z.of_nat (List.length ids))) as [Hpos | Hzero].
  - rewrite negb_false_iff, Z.eqb_eq, Nat2Z.inj_iff. split.
    + intros Hlen.
      assert (Hperm : (env_id <$> environment_findMany db ids userId) ≡ₚ ids).
      { apply submseteq_length_Permutation; [exact Hsub |].
        rewrite length_fmap. lia. }
      split; [rewrite <- Hperm; exact Hnd |].
      intros id Hid. rewrite <- Hperm in Hid. apply Hmem in Hid. tauto.
    + intros [Hids Hown].
      assert (Hsup : ids ⊆+ (env_id <$> environment_findMany db ids userId)).
      { apply NoDup_submseteq; [exact Hids |]. intros id Hid. apply Hmem. auto. }
      apply submseteq_length in Hsup. rewrite length_fmap in Hsup. lia.
  - destruct ids as [| id ids]; [| simpl in Hzero; lia].
    split; [intros _ | reflexivity].
    split; [constructor | intros id Hid; inversion Hid].
Qed.

Lemma PUT_run sync userId wsId ids db evs ws :
  workspace_find db wsId userId = Some ws ->
  PUT sync (Some userId) wsId (Returns (IdArray ids)) {| store := db; trace := evs |} =
  if ownership_rejected db ids userId then
    (Returns forbidden, {| store := db; trace := evs |})
  else
    let toSync := environment_findMany db ids userId in
    (Returns (json (EnvironmentsBody (map view toSync))),
     {| store := replace_links db wsId ids;
        trace := evs ++ SyncCall wsId toSync :: sync_log (sync wsId toSync) |}).
Proof.
  intros Hws. unfold PUT, replace_and_sync, syncEnvironmentToWorkspaces. run_monad.
  rewrite Hws. cbn [store trace].
  destruct (ownership_rejected db ids userId); [reflexivity |].
  unfold replace_links, workspaceEnvironment_createMany, workspaceEnvironment_deleteMany,
    environment_findMany, sync_log.
  destruct (Z.ltb_spec 0 (Z.of_nat (List.length ids))) as [Hpos | Hzero];
    cbn [store trace workspaces environments workspaceEnvironments].
  - destruct (sync wsId _) as [[] | e]; cbn [store trace];
      rewrite <- ?app_assoc; reflexivity.
  - destruct ids as [| id ids]; [| simpl in Hzero; lia].
    cbn [map]. rewrite app_nil_r.
    destruct (sync wsId _) as [[] | e]; cbn [store trace];
      rewrite <- ?app_assoc; reflexivity.
Qed.

Lemma PUT_outcome session wsId body db evs :
  (exists resp evs',
     status resp <> 200 /\
     (forall id envs, SyncCall id envs ∉ evs') /\
     forall sync,
       PUT sync session wsId body {| store := db; trace := evs |}
       = (Returns resp, {| store := db; trace := evs ++ evs' |})) \/
  (exists userId ids ws,
     session = Some userId /\ body = Returns (IdArray ids) /\
     workspace_find db wsId userId = Some ws /\
     ownership_rejected db ids userId = false).
Proof.
  assert (Hno : forall id envs, SyncCall id envs ∉ @nil Event).
  { intros id envs H. inversion H. }
  destruct session as [userId |].
  2: { left. exists (json_status (ErrorBody "Unauthorized") 401), [].
       rewrite app_nil_r. split; [discriminate |]. split; [exact Hno | reflexivity]. }
  destruct body as [[| ids] | e].
  - left. exists (json_status (ErrorBody "environmentIds must be an array") 400), [].
    rewrite app_nil_r. split; [discriminate |]. split; [exact Hno | reflexivity].
  - destruct (workspace_find db wsId userId) as [ws |] eqn:Hws.
    + destruct (ownership_rejected db ids userId) eqn:Hrej.
      * left. exists forbidden, []. rewrite app_nil_r.
        split; [discriminate |]. split; [exact Hno |].
        intros sync. rewrite (PUT_run _ _ _ _ _ _ _ Hws), Hrej. reflexivity.
      * right. eauto 10.
    + left. exists (json_status (ErrorBody "Workspace not found") 404), [].
      rewrite app_nil_r. split; [discriminate |]. split; [exact Hno |].
      intros sync. unfold PUT. run_monad. rewrite Hws. reflexivity.
  - left. exists (json_status (ErrorBody "Internal server error") 500), [ConsoleError e].
    split; [discriminate |]. split; [| reflexivity].
    intros id envs H. apply list_elem_of_singleton in H. discriminate.
Qed.

Lemma links_of_replace_links (db : Db) (wsId : Id) (ids : list Id) :
  links_of (replace_links db wsId ids) wsId = map (link wsId) ids.
Proof.
  unfold links_of, replace_links. cbn [workspaceEnvironments].
  rewrite filter_app.
  assert (filter (fun l => workspaceId l = wsId)
            (filter (fun l => workspaceId l <> wsId) (workspaceEnvironments db)) = []) as ->.
  { induction (workspaceEnvironments db) as [| l ls IH]; [reflexivity |].
    rewrite (filter_cons (fun l => workspaceId l <> wsId)).
    destruct (decide (workspaceId l <> wsId)) as [Hne | Heq]; [| exact IH].
    rewrite filter_cons. destruct (decide (workspaceId l = wsId)); [contradiction | exact IH]. }
  cbn [app]. induction ids as [| id ids IH]; [reflexivity |].
  cbn [map]. rewrite filter_cons. cbn [link workspaceId].
  destruct (decide (wsId = wsId)); [| contradiction]. rewrite IH. reflexivity.
Qed.

Lemma links_of_replace_links_other (db : Db) (wsId other : Id) (ids : list Id) :
  other <> wsId ->
  links_of (replace_links db wsId ids) other = links_of db other.
Proof.
  intros Hne. unfold links_of, replace_links. cbn [workspaceEnvironments].
  rewrite filter_app.
  assert (filter (fun l => workspaceId l = other) (map (link wsId) ids) = []) as ->.
  { induction ids as [| id ids IH]; [reflexivity |].
    cbn [map]. rewrite filter_cons. cbn [link workspaceId].
    destruct (decide (wsId = other)); [congruence | exact IH]. }
  rewrite app_nil_r.
  induction (workspaceEnvironments db) as [| l ls IH]; [reflexivity |].
  rewrite (filter_cons (fun l => workspaceId l <> wsId)).
  destruct (decide (workspaceId l <> wsId)) as [Hl | Hl].
  - rewrite !filter_cons. destruct (decide (workspaceId l = other)); rewrite IH; reflexivity.
  - rewrite filter_cons. destruct (decide (workspaceId l = other)) as [Heq | _]; [| exact IH].
    exfalso. apply Hl. congruence.
Qed.

Lemma NoDup_links (wsId : Id) (ids : list Id) :
  NoDup ids -> NoDup (map (link wsId) ids).
Proof.
  intros Hnd.
  assert (Hinj : Inj eq eq (link wsId)).
  { intros a b H. injection H as ->. reflexivity. }
  apply (NoDup_fmap_2 (link wsId)), Hnd.
Qed.

(** After a successful update the link table
    is the old one without the links of the workspace, followed by one
    link per requested id in request order; the links of other
    workspaces are untouched.  The sync step is called once, with the
    caller's environments whose id is in the request, in the order of
    the environment table: the requested ids are the ids of these
    environments up to order, and reordering the request does not change
    the sequence that is synced. *)
Theorem links_replaced_and_synced_in_table_order
    sync userId wsId ids db resp w' :
  environment_ids_unique db ->
  PUT sync (Some userId) wsId (Returns (IdArray ids)) (fresh db) = (Returns resp, w') ->
  status resp = 200 ->
  let toSync := environment_findMany db ids userId in
  store w' = replace_links db wsId ids /\
  links_of (store w') wsId = map (link wsId) ids /\
  (forall other, other <> wsId -> links_of (store w') other = links_of db other) /\
  trace w' = SyncCall wsId toSync :: sync_log (sync wsId toSync) /\
  toSync `sublist_of` environments db /\
  env_id <$> toSync ≡ₚ ids /\
  (forall ids', ids' ≡ₚ ids -> environment_findMany db ids' userId = toSync).
Proof.
  intros Hpk Hrun Hok toSync. unfold fresh in Hrun.
  destruct (PUT_outcome (Some userId) wsId (Returns (IdArray ids)) db [])
    as [(resp0 & evs' & Hbad & _ & Hrun0) | (u & ids0 & ws & [= <-] & [= <-] & Hws & Hacc)].
  { rewrite Hrun0 in Hrun. injection Hrun as <- _. contradiction. }
  rewrite (PUT_run _ _ _ _ _ _ _ Hws), Hacc in Hrun. cbn zeta in Hrun.
  injection Hrun as <- <-. subst toSync. cbn [store trace app].
  split; [reflexivity |].
  split; [apply links_of_replace_links |].
  split; [intros other Hne; apply links_of_replace_links_other; exact Hne |].
  split; [reflexivity |].
  split; [apply sublist_filter |].
  apply (ownership_accepted db ids userId Hpk) in Hacc as [Hnd Hown].
  destruct (findMany_ids db ids userId Hpk) as [Hnd' Hmem].
  split.
  - apply NoDup_Permutation; [exact Hnd' | exact Hnd |].
    intros id. rewrite Hmem. split; [tauto | auto].
  - intros ids' Hperm. unfold environment_findMany.
    apply list_filter_iff. intros env. rewrite Hperm. reflexivity.
Qed.

Lemma links_db_unique : environment_ids_unique Examples.links_db.
Proof. unfold environment_ids_unique. compute_done. Qed.

Lemma links_replaced_witness :
  let ids := [js "env2"; js "env1"] in
  let toSync := environment_findMany Examples.links_db ids Examples.alice in
  let w' := {| store := replace_links Examples.links_db (js "ws1") ids;
               trace := [SyncCall (js "ws1") toSync] |} in
  store w' = replace_links Examples.links_db (js "ws1") ids /\
  links_of (store w') (js "ws1") = map (link (js "ws1")) ids /\
  (forall other, other <> js "ws1" ->
                 links_of (store w') other = links_of Examples.links_db other) /\
  trace w' = SyncCall (js "ws1") toSync :: sync_log (sync_ok (js "ws1") toSync) /\
  toSync `sublist_of` environments Examples.links_db /\
  env_id <$> toSync ≡ₚ ids /\
  (forall ids', ids' ≡ₚ ids ->
                environment_findMany Examples.links_db ids' Examples.alice = toSync).
Proof.
  intros ids toSync w'.
  apply (links_replaced_and_synced_in_table_order sync_ok Examples.alice (js "ws1") ids
           Examples.links_db (json (EnvironmentsBody (map view toSync))) w').
  - exact links_db_unique.
  - reflexivity.
  - reflexivity.
Defined.

(** C6.  The update that lists env2 before env1, for a caller whose
    environment table holds env1 before env2, is answered 200 and
    replaces the links by those of the request, in request order; but
    the sync step receives env1 before env2, the order in which the
    store returns the rows, not the order of the request. *)
Lemma sync_order_is_not_request_order :
  PUT sync_ok (Some Examples.alice) (js "ws1")
    (Returns (IdArray [js "env2"; js "env1"])) (fresh Examples.links_db)
  = (Returns (json (EnvironmentsBody [view Examples.env1; view Examples.env2])),
     {| store := replace_links Examples.links_db (js "ws1") [js "env2"; js "env1"];
        trace := [SyncCall (js "ws1") [Examples.env1; Examples.env2]] |}) /\
  env_id <$> [Examples.env1; Examples.env2] <> [js "env2"; js "env1"].
Proof. split; [reflexivity | discriminate]. Qed.

(** C7.  When the caller's workspace exists and some requested id is not
    the id of an environment of the caller, the update is answered with
    403 and the world is left as it was: no link is deleted or inserted
    and the sync step is not reached. *)
Theorem unowned_id_rejects_whole_update sync userId wsId ids w ws badId :
  environment_ids_unique (store w) ->
  workspace_find (store w) wsId userId = Some ws ->
  badId ∈ ids ->
  ~ owns (store w) userId badId ->
  PUT sync (Some userId) wsId (Returns (IdArray ids)) w = (Returns forbidden, w).
Proof.
  intros Hpk Hws Hin Hnot. destruct w as [db evs]. cbn [store] in *.
  rewrite (PUT_run _ _ _ _ _ _ _ Hws).
  destruct (ownership_rejected db ids userId) eqn:Hrej; [reflexivity |].
  apply (ownership_accepted db ids userId Hpk) in Hrej as [_ Hown].
  exfalso. apply Hnot, Hown, Hin.
Qed.

Lemma unowned_id_witness :
  PUT sync_ok (Some Examples.alice) (js "ws1")
    (Returns (IdArray [js "env1"; js "env3"])) (fresh Examples.links_db)
  = (Returns forbidden, fresh Examples.links_db).
Proof.
  apply (unowned_id_rejects_whole_update sync_ok Examples.alice (js "ws1")
           [js "env1"; js "env3"] (fresh Examples.links_db) Examples.ws1 (js "env3")).
  - unfold environment_ids_unique. compute_done.
  - reflexivity.
  - compute_done.
  - unfold owns. compute_done.
Defined.

(** C10.  When the caller's workspace exists and the request lists some
    id more than once, the count comparison fails: the update is answered
    with 403 and the world is left as it was.  Hence no update, whatever
    its caller and body, leaves duplicate links for the workspace: it
    either leaves the store as it was or leaves the workspace with
    pairwise distinct links. *)
Theorem duplicate_ids_rejected sync userId wsId ids w ws :
  environment_ids_unique (store w) ->
  workspace_find (store w) wsId userId = Some ws ->
  ~ NoDup ids ->
  PUT sync (Some userId) wsId (Returns (IdArray ids)) w = (Returns forbidden, w) /\
  forall sync' session body,
    let w' := snd (PUT sync' session wsId body w) in
    store w' = store w \/ NoDup (links_of (store w') wsId).
Proof.
  intros Hpk Hws Hdup. destruct w as [db evs]. cbn [store] in *. split.
  - rewrite (PUT_run _ _ _ _ _ _ _ Hws).
    destruct (ownership_rejected db ids userId) eqn:Hrej; [reflexivity |].
    apply (ownership_accepted db ids userId Hpk) in Hrej as [Hnd _]. contradiction.
  - intros sync' session body.
    destruct (PUT_outcome session wsId body db evs)
      as [(resp0 & evs' & _ & _ & Hrun) | (u & ids0 & ws0 & -> & -> & Hws0 & Hacc)].
    + left. rewrite Hrun. reflexivity.
    + right. rewrite (PUT_run _ _ _ _ _ _ _ Hws0), Hacc. cbn [snd store].
      rewrite links_of_replace_links.
      apply (ownership_accepted db ids0 u Hpk) in Hacc as [Hnd _].
      apply NoDup_links, Hnd.
Qed.

Lemma duplicate_ids_witness :
  PUT sync_ok (Some Examples.alice) (js "ws1")
    (Returns (IdArray [js "env1"; js "env1"])) (fresh Examples.links_db)
  = (Returns forbidden, fresh Examples.links_db) /\
  forall sync' session body,
    let w' := snd (PUT sync' session (js "ws1") body (fresh Examples.links_db)) in
    store w' = store (fresh Examples.links_db) \/ NoDup (links_of (store w') (js "ws1")).
Proof.
  apply (duplicate_ids_rejected sync_ok Examples.alice (js "ws1")
           [js "env1"; js "env1"] (fresh Examples.links_db) Examples.ws1).
  - unfold environment_ids_unique. compute_done.
  - reflexivity.
  - compute_done.
Defined.

End LinkFacts.

(** ** Sync errors and invalid payloads *)

Module SyncFacts.

Import WorkspaceEnvironments LinkRuns LinkFacts.

Lemma new_events_app (db db' : Db) (evs evs' : list Event) :
  new_events {| store := db; trace := evs |} {| store := db'; trace := evs ++ evs' |} = evs'.
Proof. unfold new_events. cbn [trace]. apply drop_app_length. Qed.

Lemma sync_log_logs (sync : SyncOracle) id envs e :
  sync id envs = Throws e -> ConsoleError e ∈ sync_log (sync id envs).
Proof. intros ->. apply list_elem_of_here. Qed.

Lemma sync_log_no_call (o : Outcome unit) id envs : SyncCall id envs ∉ sync_log o.
Proof.
  destruct o as [[] | e]; cbn; intros H.
  - inversion H.
  - apply list_elem_of_singleton in H. discriminate.
Qed.

Lemma workspace_update_tolerates sync session wsId body w :
  tolerates_sync_errors sync w
    (PUT sync session wsId body w) (PUT sync_ok session wsId body w).
Proof.
  destruct w as [db evs].
  destruct (PUT_outcome session wsId body db evs)
    as [(resp & evs' & Hbad & Hno & Hrun) | (u & ids & ws & -> & -> & Hws & Hacc)].
  - rewrite !Hrun. split; [reflexivity |]. split; [reflexivity |].
    intros id envs Hin. cbn [snd] in Hin. rewrite new_events_app in Hin.
    exfalso. exact (Hno _ _ Hin).
  - rewrite !(PUT_run _ _ _ _ _ _ _ Hws), Hacc. cbn zeta.
    split; [reflexivity |]. split; [reflexivity |].
    intros id envs Hin. cbn [snd fst] in *. rewrite new_events_app in *.
    split; [eexists; split; reflexivity |].
    intros e He. apply elem_of_cons in Hin as [[= -> ->] | Hin].
    + apply list_elem_of_further, sync_log_logs, He.
    + exfalso. exact (sync_log_no_call _ _ _ Hin).
Qed.

Section WithHost.

Context `{host : JsonHost}.

Import EnvironmentUpdate.

Lemma sync_linked_run sync linked updated w :
  sync_linked sync linked updated w
  = (Returns tt, extend w (linked_sync_events sync linked updated)).
Proof.
  revert w. induction linked as [| ws linked IH]; intros w.
  - cbn. rewrite ProbeFacts.extend_nil_r. reflexivity.
  - cbn [sync_linked linked_sync_events flat_map].
    unfold mbind at 1, M_bind at 1.
    destruct (bool_decide (ws_status ws = js "running")).
    + unfold syncEnvironmentToWorkspaces. run_monad.
      destruct (sync (ws_id ws) [updated]) as [[] | e]; cbn [sync_log store trace];
        rewrite IH; unfold extend, linked_sync_events; cbn [store trace];
        rewrite <- ?app_assoc; reflexivity.
    + run_monad. rewrite IH. reflexivity.
Qed.

Lemma linked_sync_events_logged sync linked updated id envs :
  SyncCall id envs ∈ linked_sync_events sync linked updated ->
  forall e, sync id envs = Throws e ->
            ConsoleError e ∈ linked_sync_events sync linked updated.
Proof.
  intros Hin e He. unfold linked_sync_events in *.
  apply list_elem_of_In, in_flat_map in Hin as (ws & Hws & Hin).
  apply list_elem_of_In, in_flat_map. exists ws. split; [exact Hws |].
  destruct (bool_decide (ws_status ws = js "running")); [| destruct Hin].
  apply list_elem_of_In in Hin. apply list_elem_of_In.
  apply elem_of_cons in Hin as [[= -> ->] | Hin].
  - apply list_elem_of_further, sync_log_logs, He.
  - exfalso. exact (sync_log_no_call _ _ _ Hin).
Qed.

Lemma environment_update_outcome session envId body db evs :
  (exists resp evs',
     status resp <> 200 /\
     (forall id envs, SyncCall id envs ∉ evs') /\
     forall sync,
       EnvironmentUpdate.PUT sync session envId body {| store := db; trace := evs |}
       = (Returns resp, {| store := db; trace := evs ++ evs' |})) \/
  (exists updated db' linked,
     forall sync,
       EnvironmentUpdate.PUT sync session envId body {| store := db; trace := evs |}
       = (Returns (json (EnvironmentBody updated)),
          {| store := db'; trace := evs ++ linked_sync_events sync linked updated |})).
Proof.
  assert (Hno : forall id envs, SyncCall id envs ∉ @nil Event).
  { intros id envs H. inversion H. }
  assert (Hno1 : forall e id envs, SyncCall id envs ∉ [ConsoleError e]).
  { intros e id envs H. apply list_elem_of_singleton in H. discriminate. }
  destruct session as [userId |].
  2: { left. exists (json_status (ErrorBody "Unauthorized") 401), [].
       rewrite app_nil_r. split; [discriminate |]. split; [exact Hno | reflexivity]. }
  destruct body as [body | e].
  2: { left. exists (json_status (ErrorBody "Internal server error") 500), [ConsoleError e].
       split; [discriminate |]. split; [apply Hno1 | reflexivity]. }
  destruct (environment_find db envId userId) as [existing |] eqn:Hfind.
  2: { left. exists (json_status (ErrorBody "Environment not found") 404), [].
       rewrite app_nil_r. split; [discriminate |]. split; [exact Hno |].
       intros sync. unfold EnvironmentUpdate.PUT. run_monad. rewrite Hfind. reflexivity. }
  destruct (parse_variables_field (variables body)) as [bad | parsed] eqn:Hparse.
  { left. exists bad, []. rewrite app_nil_r.
    split; [| split; [exact Hno |]].
    - destruct (variables body) as [| s | o |]; cbn in Hparse; try discriminate.
      destruct (JSON_parse s); [discriminate |].
      injection Hparse as <-. discriminate.
    - intros sync. unfold EnvironmentUpdate.PUT. run_monad.
      rewrite Hfind, Hparse. reflexivity. }
  destruct (update_data body parsed) as [data | e] eqn:Hdata.
  2: { left. exists (json_status (ErrorBody "Internal server error") 500), [ConsoleError e].
       split; [discriminate |]. split; [apply Hno1 |].
       intros sync. unfold EnvironmentUpdate.PUT. run_monad.
       rewrite Hfind, Hparse, Hdata. reflexivity. }
  destruct (List.find (fun e => bool_decide (env_id e = envId)) (environments db))
    as [row |] eqn:Hrow.
  2: { left. exists (json_status (ErrorBody "Internal server error") 500),
         [ConsoleError RequestError].
       split; [discriminate |]. split; [apply Hno1 |].
       intros sync. unfold EnvironmentUpdate.PUT, environment_update. run_monad.
       rewrite Hfind, Hparse, Hdata. cbn [store trace]. rewrite Hrow. reflexivity. }
  right. do 3 eexists. intros sync.
  unfold EnvironmentUpdate.PUT, environment_update. run_monad.
  rewrite Hfind, Hparse, Hdata. cbn [store trace]. rewrite Hrow. cbn [store trace].
  rewrite sync_linked_run. unfold extend. cbn [store trace]. reflexivity.
Qed.

Lemma environment_update_tolerates sync session envId body w :
  tolerates_sync_errors sync w
    (EnvironmentUpdate.PUT sync session envId body w)
    (EnvironmentUpdate.PUT sync_ok session envId body w).
Proof.
  destruct w as [db evs].
  destruct (environment_update_outcome session envId body db evs)
    as [(resp & evs' & Hbad & Hno & Hrun) | (updated & db' & linked & Hrun)].
  - rewrite !Hrun. split; [reflexivity |]. split; [reflexivity |].
    intros id envs Hin. cbn [snd] in Hin. rewrite new_events_app in Hin.
    exfalso. exact (Hno _ _ Hin).
  - rewrite !Hrun. split; [reflexivity |]. split; [reflexivity |].
    intros id envs Hin. cbn [snd fst] in *. rewrite new_events_app in *.
    split; [eexists; split; reflexivity |].
    apply linked_sync_events_logged, Hin.
Qed.

End WithHost.

(** Both updates tolerate sync errors: whatever the sync does, the
    response and the store are those of the run in which every sync
    succeeds, and a run that reached a sync call ends with a 200
    response, each error thrown by a sync call being caught and logged. *)
Theorem sync_failure_never_fails_request :
  (forall sync session wsId body w,
     tolerates_sync_errors sync w
       (WorkspaceEnvironments.PUT sync session wsId body w)
       (WorkspaceEnvironments.PUT sync_ok session wsId body w)) /\
  (forall (host : JsonHost) sync session envId body w,
     tolerates_sync_errors sync w
       (EnvironmentUpdate.PUT sync session envId body w)
       (EnvironmentUpdate.PUT sync_ok session envId body w)).
Proof.
  split.
  - exact workspace_update_tolerates.
  - intros host. exact environment_update_tolerates.
Qed.

(** A sync that fails does not fail the link update: the links are
    replaced, the error is logged, the answer is 200. *)
Example link_update_survives_failing_sync :
  WorkspaceEnvironments.PUT sync_failing (Some Examples.alice) (js "ws1")
    (Returns (IdArray [js "env2"])) (fresh Examples.links_db)
  = (Returns (json (EnvironmentsBody [view Examples.env2])),
     {| store := replace_links Examples.links_db (js "ws1") [js "env2"];
        trace := [SyncCall (js "ws1") [Examples.env2];
                  ConsoleError (EngineError "container not running")] |}).
Proof. reflexivity. Qed.

(** The same for the update of an environment linked to a running
    workspace. *)
Example environment_update_survives_failing_sync :
  let renamed :=
    {| env_id := js "env1"; env_userId := Examples.alice; env_name := js "base2";
       env_description := None; env_variables := js "{}" |} in
  @EnvironmentUpdate.PUT Examples.host_of_empty_object sync_failing
    (Some Examples.alice) (js "env1")
    (Returns {| EnvironmentUpdate.name := EnvironmentUpdate.Str (js "  base2 ");
                EnvironmentUpdate.description := EnvironmentUpdate.Undefined;
                EnvironmentUpdate.variables := EnvironmentUpdate.VarString (js "{}") |})
    (fresh Examples.links_db)
  = (Returns (json (EnvironmentBody renamed)),
     {| store := {| workspaces := [Examples.ws1];
                    environments := [renamed; Examples.env2; Examples.env3];
                    workspaceEnvironments := [link (js "ws1") (js "env1")] |};
        trace := [SyncCall (js "ws1") [renamed];
                  ConsoleError (EngineError "container not running")] |}).
Proof. reflexivity. Qed.

End SyncFacts.

(** ** Consumers of an invalid variables payload *)

Module ConsumerFacts.

Import Consumers.

(** C9.  For a stored payload that is not valid JSON and not the empty
    string, [parseVariables] gives no entries and [getVariableCount]
    gives 0, but the count shown on the environment card is computed
    without a [try]: the error of [JSON.parse] escapes it. *)
Theorem variable_count_label_throws `{host : JsonHost} (env : Environment) (e : JsError) :
  JSON_parse (env_variables env) = Throws e ->
  env_variables env <> [] ->
  parseVariables (env_variables env) = Returns [] /\
  getVariableCount env = Returns 0 /\
  variableCountLabel env = Throws e.
Proof.
  intros Hparse Hne.
  unfold parseVariables, getVariableCount, variableCountLabel, catch_outcome.
  unfold mbind, Outcome_bind.
  destruct (env_variables env) as [| c s] eqn:Hv; [congruence |].
  cbn [truthy]. rewrite Hparse. repeat split; reflexivity.
Qed.

Lemma variable_count_label_throws_witness :
  @parseVariables Examples.host_of_empty_object (env_variables Examples.env_broken)
  = Returns [] /\
  @getVariableCount Examples.host_of_empty_object Examples.env_broken = Returns 0 /\
  @variableCountLabel Examples.host_of_empty_object Examples.env_broken = Throws SyntaxError.
Proof.
  apply (@variable_count_label_throws Examples.host_of_empty_object
           Examples.env_broken SyntaxError).
  - reflexivity.
  - discriminate.
Defined.

(** An empty payload is the one invalid text the card does handle. *)
Example variable_count_label_of_empty_payload `{host : JsonHost} (env : Environment) :
  env_variables env = [] ->
  variableCountLabel env
  = (parsed ← JSON_parse (js "{}"); keys ← Object_keys parsed;
     mret (Z.of_nat (List.length keys))).
Proof. intros Hv. unfold variableCountLabel. rewrite Hv. reflexivity. Qed.

End ConsumerFacts.

(** * Further properties of the handlers and of the client code *)

(** ** [String.prototype.trim] *)

Module TrimFacts.

Lemma trimStart_head (s : jsstring) :
  match trimStart s with
  | c :: _ => is_white_space c = false
  | [] => True
  end.
Proof.
  induction s as [| c s IH]; simpl; [exact I |].
  destruct (is_white_space c) eqn:Hc; [exact IH | exact Hc].
Qed.

Lemma trimStart_split (s : jsstring) :
  exists pre, s = pre ++ trimStart s /\ Forall (fun c => is_white_space c = true) pre.
Proof.
  induction s as [| c s (pre & Hs & Hpre)]; simpl.
  - exists []. split; [reflexivity | constructor].
  - destruct (is_white_space c) eqn:Hc.
    + exists (c :: pre). split; [simpl; congruence | constructor; assumption].
    + exists []. split; [reflexivity | constructor].
Qed.

Lemma trimStart_fixed (c : Z) (s : jsstring) :
  is_white_space c = false -> trimStart (c :: s) = c :: s.
Proof. intros Hc. simpl. rewrite Hc. reflexivity. Qed.

Lemma trimEnd_split (s : jsstring) :
  exists suf, s = trimEnd s ++ suf /\ Forall (fun c => is_white_space c = true) suf.
Proof.
  unfold trimEnd. destruct (trimStart_split (reverse s)) as (pre & Hs & Hpre).
  exists (reverse pre). split.
  - rewrite <- reverse_app, <- Hs, reverse_involutive. reflexivity.
  - apply Forall_reverse, Hpre.
Qed.

Lemma trimEnd_last (s : jsstring) :
  match last (trimEnd s) with
  | Some c => is_white_space c = false
  | None => True
  end.
Proof.
  unfold trimEnd. pose proof (trimStart_head (reverse s)) as H.
  destruct (trimStart (reverse s)) as [| c t]; [exact I |].
  rewrite reverse_cons, last_snoc. exact H.
Qed.

Lemma trimEnd_fixed (s : jsstring) (c : Z) :
  is_white_space c = false -> trimEnd (s ++ [c]) = s ++ [c].
Proof.
  intros Hc. unfold trimEnd. rewrite reverse_snoc, trimStart_fixed by exact Hc.
  rewrite reverse_cons, reverse_involutive. reflexivity.
Qed.

(** The trimmed string starts and ends with a character that is not
    white space, unless it is empty. *)
Lemma trim_ends (s : jsstring) :
  match trim s with
  | c :: _ => is_white_space c = false
  | [] => True
  end /\
  match last (trim s) with
  | Some c => is_white_space c = false
  | None => True
  end.
Proof.
  split; [| apply trimEnd_last].
  unfold trim. pose proof (trimStart_head s) as Hhead.
  destruct (trimEnd_split (trimStart s)) as (suf & Hsplit & Hsuf).
  destruct (trimStart s) as [| c u] eqn:Hu.
  - destruct (trimEnd []); [exact I | discriminate].
  - destruct (trimEnd (c :: u)) as [| c' t'] eqn:Ht.
    + exact I.
    + injection Hsplit as <- _. exact Hhead.
Qed.

Lemma trim_fixed (s : jsstring) :
  match s with c :: _ => is_white_space c = false | [] => True end ->
  match last s with Some c => is_white_space c = false | None => True end ->
  trim s = s.
Proof.
  intros Hhead Hlast. unfold trim.
  destruct s as [| c s]; [reflexivity |].
  rewrite trimStart_fixed by exact Hhead.
  destruct (exists_last (l := c :: s)) as (u & c' & Hu); [discriminate |].
  rewrite Hu in *. rewrite last_snoc in Hlast.
  apply trimEnd_fixed, Hlast.
Qed.

Lemma trim_idempotent (s : jsstring) : trim (trim s) = trim s.
Proof. destruct (trim_ends s) as [Hhead Hlast]. apply trim_fixed; assumption. Qed.

End TrimFacts.

(** ** The selection of environments in the dialogs *)

Module DialogFacts.

Import Dialog WorkspaceEnvironments LinkRuns LinkFacts.

Lemma toggle_same (envId : Id) (prev : list Id) :
  handleToggleEnvironment envId prev = toggleEnvironment envId prev.
Proof. reflexivity. Qed.

Lemma toggle_elem_of (envId other : Id) (prev : list Id) :
  other ∈ toggleEnvironment envId prev <->
  if bool_decide (other = envId) then envId ∉ prev else other ∈ prev.
Proof.
  unfold toggleEnvironment.
  destruct (bool_decide_reflect (envId ∈ prev)) as [Hin | Hout];
    destruct (bool_decide_reflect (other = envId)) as [-> | Hne].
  - rewrite list_elem_of_filter. tauto.
  - rewrite list_elem_of_filter. tauto.
  - rewrite elem_of_app, list_elem_of_singleton. tauto.
  - rewrite elem_of_app, list_elem_of_singleton. tauto.
Qed.

Lemma toggle_NoDup (envId : Id) (prev : list Id) :
  NoDup prev -> NoDup (toggleEnvironment envId prev).
Proof.
  intros Hnd. unfold toggleEnvironment.
  destruct (bool_decide_reflect (envId ∈ prev)) as [Hin | Hout].
  - apply NoDup_filter, Hnd.
  - apply NoDup_app. split; [exact Hnd |]. split.
    + intros x Hx Hx'. apply list_elem_of_singleton in Hx'. subst x. contradiction.
    + apply NoDup_singleton.
Qed.

Lemma filter_other_id (envId : Id) (l : list Id) :
  envId ∉ l -> filter (fun id => id <> envId) l = l.
Proof.
  induction l as [| x l IH]; intros Hout; [reflexivity |].
  rewrite filter_cons. apply not_elem_of_cons in Hout as [Hne Hout].
  destruct (decide (x <> envId)) as [_ | Heq]; [| exfalso; apply Heq; congruence].
  rewrite IH by exact Hout. reflexivity.
Qed.

Lemma clicks_snoc (envIds : list Id) (envId : Id) :
  clicks (envIds ++ [envId]) = toggleEnvironment envId (clicks envIds).
Proof. unfold clicks. rewrite foldl_app. reflexivity. Qed.

(** X1.  Whatever environments are clicked, and however often, the
    selection holds no environment twice, and it holds exactly the
    environments that were clicked an odd number of times. *)
Theorem clicks_select_odd_clicked (clicked : list Id) :
  NoDup (clicks clicked) /\
  forall envId,
    envId ∈ clicks clicked <->
    Nat.odd (List.length (filter (fun id => id = envId) clicked)) = true.
Proof.
  induction clicked as [| last clicked [IHnd IHmem]] using rev_ind.
  - split; [constructor |]. intros envId. cbn. split; [intros H; inversion H | discriminate].
  - rewrite clicks_snoc. split; [apply toggle_NoDup, IHnd |].
    intros envId. rewrite toggle_elem_of, filter_app, length_app.
    rewrite filter_cons, filter_nil.
    destruct (bool_decide_reflect (envId = last)) as [-> | Hne].
    + destruct (decide (last = last)); [| contradiction].
      cbn [List.length]. rewrite Nat.add_1_r, Nat.odd_succ, <- Nat.negb_odd.
      rewrite IHmem. destruct (Nat.odd _); cbn; split; intros H;
        [exfalso; apply H; reflexivity | discriminate | reflexivity | discriminate].
    + destruct (decide (last = envId)); [congruence |].
      cbn [List.length]. rewrite Nat.add_0_r. apply IHmem.
Qed.

(** X2.  Clicking an environment twice leaves an unselected environment
    unselected and the selection as it was; for a selected environment
    it keeps the environment selected but moves it to the end of the
    selection. *)
Theorem toggle_twice (envId : Id) (prev : list Id) :
  toggleEnvironment envId (toggleEnvironment envId prev) =
  if bool_decide (envId ∈ prev)
  then filter (fun id => id <> envId) prev ++ [envId]
  else prev.
Proof.
  unfold toggleEnvironment at 2.
  destruct (bool_decide_reflect (envId ∈ prev)) as [Hin | Hout].
  - unfold toggleEnvironment.
    destruct (bool_decide_reflect (envId ∈ filter (fun id => id <> envId) prev)) as [H | _];
      [| reflexivity].
    apply list_elem_of_filter in H as [H _]. contradiction.
  - unfold toggleEnvironment.
    destruct (bool_decide_reflect (envId ∈ prev ++ [envId])) as [_ | H].
    + rewrite filter_app, filter_cons, filter_nil.
      destruct (decide (envId <> envId)); [contradiction |].
      rewrite app_nil_r. apply filter_other_id, Hout.
    + exfalso. apply H. apply elem_of_app. right. apply list_elem_of_here.
Qed.

End DialogFacts.

(** ** Reading and writing the links of a workspace *)

Module LinkReadFacts.

Import Dialog WorkspaceEnvironments LinkRuns LinkFacts LinkedEnvironments DialogFacts.

Lemma find_by_id (db : Db) (userId id : Id) :
  owns db userId id ->
  exists env,
    List.find (fun e => bool_decide (env_id e = id)) (environments db) = Some env /\
    env_id env = id /\ env ∈ environments db.
Proof.
  intros Hown. apply Exists_exists in Hown as (env0 & Hin & Hid & _).
  destruct (List.find (fun e => bool_decide (env_id e = id)) (environments db))
    as [env |] eqn:Hfind.
  - apply find_some in Hfind as [Hin' Hb]. apply bool_decide_eq_true in Hb.
    exists env. rewrite list_elem_of_In. auto.
  - exfalso. apply list_elem_of_In in Hin.
    pose proof (find_none _ _ Hfind _ Hin) as Hb. cbn in Hb.
    apply bool_decide_eq_false in Hb. contradiction.
Qed.

Lemma unique_row (db : Db) (e1 e2 : Environment) :
  environment_ids_unique db ->
  e1 ∈ environments db -> e2 ∈ environments db -> env_id e1 = env_id e2 -> e1 = e2.
Proof.
  unfold environment_ids_unique. intros Hpk H1 H2 Hid.
  induction (environments db) as [| e es IH]; [inversion H1 |].
  rewrite fmap_cons in Hpk. apply NoDup_cons in Hpk as [Hfresh Hpk].
  apply elem_of_cons in H1 as [-> | H1]; apply elem_of_cons in H2 as [-> | H2].
  - reflexivity.
  - exfalso. apply Hfresh. rewrite Hid. apply list_elem_of_fmap. eauto.
  - exfalso. apply Hfresh. rewrite <- Hid. apply list_elem_of_fmap. eauto.
  - apply IH; assumption.
Qed.

Lemma included_rows (db : Db) (userId wsId : Id) (ids : list Id) :
  (forall id, id ∈ ids -> owns db userId id) ->
  exists envs,
    omap (fun l => List.find (fun e => bool_decide (env_id e = environmentId l))
                     (environments db))
      (map (link wsId) ids) = envs /\
    env_id <$> envs = ids /\
    Forall (fun env => env ∈ environments db) envs.
Proof.
  intros Hown. induction ids as [| id ids IH].
  - exists []. repeat split. constructor.
  - destruct IH as (envs & Henvs & Hids & Hall).
    { intros id' Hid'. apply Hown. apply list_elem_of_further, Hid'. }
    destruct (find_by_id db userId id) as (env & Hfind & Hid & Hin).
    { apply Hown, list_elem_of_here. }
    exists (env :: envs). split; [| split].
    + cbn [map]. unfold omap in *. cbn [list_omap link environmentId].
      rewrite Hfind. f_equal. exact Henvs.
    + rewrite fmap_cons, Hid, Hids. reflexivity.
    + constructor; assumption.
Qed.

Lemma included_after_replace (db : Db) (userId wsId : Id) (ids : list Id) :
  (forall id, id ∈ ids -> owns db userId id) ->
  exists envs,
    included_environments (replace_links db wsId ids) wsId = envs /\
    env_id <$> envs = ids /\
    Forall (fun env => env ∈ environments db) envs.
Proof.
  intros Hown. unfold included_environments. rewrite links_of_replace_links.
  cbn [environments replace_links]. apply (included_rows db userId), Hown.
Qed.

(** X3.  For the caller's workspace the link update is accepted (200)
    exactly when the requested ids are pairwise distinct and each is the
    id of an environment of the caller; otherwise it is answered 403. *)
Theorem put_accepts_distinct_owned_ids sync userId wsId ids w ws :
  environment_ids_unique (store w) ->
  workspace_find (store w) wsId userId = Some ws ->
  exists resp w',
    PUT sync (Some userId) wsId (Returns (IdArray ids)) w = (Returns resp, w') /\
    (status resp = 200 \/ status resp = 403) /\
    (status resp = 200 <->
     NoDup ids /\ forall id, id ∈ ids -> owns (store w) userId id).
Proof.
  intros Hpk Hws. destruct w as [db evs]. cbn [store] in *.
  rewrite (PUT_run _ _ _ _ _ _ _ Hws).
  pose proof (ownership_accepted db ids userId Hpk) as Hacc.
  destruct (ownership_rejected db ids userId).
  - do 2 eexists. split; [reflexivity |]. split; [right; reflexivity |].
    cbn. split; [discriminate |]. intros H. apply Hacc in H. discriminate.
  - do 2 eexists. split; [reflexivity |]. split; [left; reflexivity |].
    cbn. split; [intros _; apply Hacc; reflexivity | reflexivity].
Qed.

Lemma put_accepts_witness :
  exists resp w',
    PUT sync_ok (Some Examples.alice) (js "ws1")
      (Returns (IdArray [js "env2"; js "env1"])) (fresh Examples.links_db)
    = (Returns resp, w') /\
    (status resp = 200 \/ status resp = 403) /\
    (status resp = 200 <->
     NoDup [js "env2"; js "env1"] /\
     forall id, id ∈ [js "env2"; js "env1"] ->
                owns (store (fresh Examples.links_db)) Examples.alice id).
Proof.
  apply (put_accepts_distinct_owned_ids sync_ok Examples.alice (js "ws1")
           [js "env2"; js "env1"] (fresh Examples.links_db) Examples.ws1).
  - unfold environment_ids_unique. compute_done.
  - reflexivity.
Defined.

Lemma toggles_NoDup (initial clicked : list Id) :
  NoDup initial ->
  NoDup (foldl (fun prev envId => handleToggleEnvironment envId prev) initial clicked).
Proof.
  revert initial. induction clicked as [| envId clicked IH]; intros initial Hnd.
  - exact Hnd.
  - cbn [foldl]. apply IH. rewrite toggle_same. apply toggle_NoDup, Hnd.
Qed.

(** X4.  A selection that the configuration dialog builds by clicks from
    a list of distinct ids is never refused for duplicates: when every
    selected id is an environment of the caller, saving it is answered
    200 and the workspace is linked to exactly the selection, in its
    order. *)
Theorem dialog_selection_is_accepted sync userId wsId db ws (initial clicked : list Id) :
  environment_ids_unique db ->
  workspace_find db wsId userId = Some ws ->
  NoDup initial ->
  let selection :=
    foldl (fun prev envId => handleToggleEnvironment envId prev) initial clicked in
  (forall id, id ∈ selection -> owns db userId id) ->
  exists resp w',
    PUT sync (Some userId) wsId (Returns (IdArray selection)) (fresh db) = (Returns resp, w') /\
    status resp = 200 /\
    links_of (store w') wsId = map (link wsId) selection.
Proof.
  intros Hpk Hws Hnd selection Hown. unfold fresh.
  rewrite (PUT_run _ _ _ _ _ _ _ Hws).
  assert (ownership_rejected db selection userId = false) as ->.
  { apply (ownership_accepted db selection userId Hpk).
    split; [apply toggles_NoDup, Hnd | exact Hown]. }
  do 2 eexists. split; [reflexivity |]. split; [reflexivity |].
  apply links_of_replace_links.
Qed.

Lemma alice_owns_env1_env2 (id : Id) :
  id ∈ [js "env2"; js "env1"] -> owns Examples.links_db Examples.alice id.
Proof.
  intros Hid. apply elem_of_cons in Hid as [-> | Hid]; [unfold owns; compute_done |].
  apply list_elem_of_singleton in Hid as ->. unfold owns. compute_done.
Qed.

Lemma dialog_selection_witness :
  exists resp w',
    PUT sync_ok (Some Examples.alice) (js "ws1")
      (Returns (IdArray [js "env2"; js "env1"])) (fresh Examples.links_db)
    = (Returns resp, w') /\
    status resp = 200 /\
    links_of (store w') (js "ws1") = map (link (js "ws1")) [js "env2"; js "env1"].
Proof.
  apply (dialog_selection_is_accepted sync_ok Examples.alice (js "ws1")
           Examples.links_db Examples.ws1 [js "env1"] [js "env2"; js "env1"; js "env1"]).
  - unfold environment_ids_unique. compute_done.
  - reflexivity.
  - compute_done.
  - exact alice_owns_env1_env2.
Defined.

(** X5.  After a successful link update, reading the links of the
    workspace lists exactly the requested environments, each once, in
    whatever order the store returns the link rows; the update's own
    response lists the same environments, again up to order. *)
Theorem get_after_put_lists_requested_environments sync userId wsId ids db resp w' :
  environment_ids_unique db ->
  PUT sync (Some userId) wsId (Returns (IdArray ids)) (fresh db) = (Returns resp, w') ->
  status resp = 200 ->
  exists linked synced,
    GET (Some userId) wsId w' = (Returns (json (EnvironmentsBody (map view linked))), w') /\
    NoDup linked /\
    env_id <$> linked ≡ₚ ids /\
    body resp = EnvironmentsBody (map view synced) /\
    synced ≡ₚ linked.
Proof.
  intros Hpk Hrun Hok. unfold fresh in Hrun.
  destruct (PUT_outcome (Some userId) wsId (Returns (IdArray ids)) db [])
    as [(resp0 & evs' & Hbad & _ & Hrun0) | (u & ids0 & ws & [= <-] & [= <-] & Hws & Hacc)].
  { rewrite Hrun0 in Hrun. injection Hrun as <- _. contradiction. }
  rewrite (PUT_run _ _ _ _ _ _ _ Hws), Hacc in Hrun. cbn zeta in Hrun.
  injection Hrun as <- <-.
  pose proof Hacc as Hacc'.
  apply (ownership_accepted db ids userId Hpk) in Hacc' as [Hnd Hown].
  destruct (included_after_replace db userId wsId ids Hown) as (linked & Hincl & Hids & Hall).
  exists linked, (environment_findMany db ids userId).
  split.
  { unfold GET. run_monad. cbn [replace_links workspaces] in *.
    unfold workspace_find in *. cbn [workspaces replace_links]. rewrite Hws.
    cbn [store]. rewrite Hincl. reflexivity. }
  assert (Hlinked_nd : NoDup linked).
  { apply (NoDup_fmap_1 env_id). rewrite Hids. exact Hnd. }
  split; [exact Hlinked_nd |].
  split; [rewrite Hids; reflexivity |]. split; [reflexivity |].
  destruct (findMany_ids db ids userId Hpk) as [Hnd' Hmem].
  apply NoDup_Permutation.
  - apply (NoDup_fmap_1 env_id), Hnd'.
  - exact Hlinked_nd.
  - intros env. split.
    + intros Hin. pose proof Hin as Hin'.
      apply list_elem_of_filter in Hin' as [[Hid _] Hrow].
      rewrite <- Hids in Hid. apply list_elem_of_fmap in Hid as (env' & Heq & Hin').
      rewrite Forall_forall in Hall.
      rewrite (unique_row db env env' Hpk Hrow (Hall _ Hin') Heq). exact Hin'.
    + intros Hin. rewrite Forall_forall in Hall. pose proof (Hall _ Hin) as Hrow.
      assert (Hid : env_id env ∈ ids).
      { rewrite <- Hids. apply list_elem_of_fmap. eauto. }
      pose proof (Hown _ Hid) as Hex.
      apply Exists_exists in Hex as (env' & Hrow' & Heq & Huser).
      rewrite (unique_row db env env' Hpk Hrow Hrow' (eq_sym Heq)).
      apply list_elem_of_filter. split; [| exact Hrow'].
      split; [rewrite Heq; exact Hid | exact Huser].
Qed.

Lemma get_after_put_witness :
  exists linked synced,
    GET (Some Examples.alice) (js "ws1")
      {| store := replace_links Examples.links_db (js "ws1") [js "env2"; js "env1"];
         trace := [SyncCall (js "ws1") [Examples.env1; Examples.env2]] |}
    = (Returns (json (EnvironmentsBody (map view linked))),
       {| store := replace_links Examples.links_db (js "ws1") [js "env2"; js "env1"];
          trace := [SyncCall (js "ws1") [Examples.env1; Examples.env2]] |}) /\
    NoDup linked /\
    env_id <$> linked ≡ₚ [js "env2"; js "env1"] /\
    body (json (EnvironmentsBody [view Examples.env1; view Examples.env2]))
    = EnvironmentsBody (map view synced) /\
    synced ≡ₚ linked.
Proof.
  apply (get_after_put_lists_requested_environments sync_ok Examples.alice (js "ws1")
           [js "env2"; js "env1"] Examples.links_db).
  - unfold environment_ids_unique. compute_done.
  - reflexivity.
  - reflexivity.
Defined.

(** X6.  Both link handlers always answer (their whole body is inside
    the [try]) and answer 200 only to an authenticated caller who owns
    the workspace; reading the links leaves the store as it was. *)
Theorem link_handlers_serve_only_the_owner :
  (forall session wsId w,
     exists resp w',
       GET session wsId w = (Returns resp, w') /\
       store w' = store w /\
       (status resp = 200 ->
        exists userId ws, session = Some userId /\
                          workspace_find (store w) wsId userId = Some ws /\
                          ws_id ws = wsId /\ ws_userId ws = userId)) /\
  (forall sync session wsId body w,
     exists resp w',
       PUT sync session wsId body w = (Returns resp, w') /\
       (status resp = 200 ->
        exists userId ws, session = Some userId /\
                          workspace_find (store w) wsId userId = Some ws /\
                          ws_id ws = wsId /\ ws_userId ws = userId)).
Proof.
  assert (Hfound : forall db wsId userId ws,
            workspace_find db wsId userId = Some ws ->
            ws_id ws = wsId /\ ws_userId ws = userId).
  { intros db wsId userId ws H. apply find_some in H as [_ H].
    apply bool_decide_eq_true in H. exact H. }
  split.
  - intros session wsId w. unfold GET. run_monad.
    destruct session as [userId |].
    2: { do 2 eexists. split; [reflexivity |]. split; [reflexivity | discriminate]. }
    destruct (workspace_find (store w) wsId userId) as [ws |] eqn:Hws.
    2: { do 2 eexists. split; [reflexivity |]. split; [reflexivity | discriminate]. }
    do 2 eexists. split; [reflexivity |]. split; [reflexivity |]. intros _.
    exists userId, ws. destruct (Hfound _ _ _ _ Hws). auto.
  - intros sync session wsId body [db evs].
    destruct (PUT_outcome session wsId body db evs)
      as [(resp & evs' & Hbad & _ & Hrun) | (u & ids & ws & -> & -> & Hws & Hacc)].
    + rewrite Hrun. do 2 eexists. split; [reflexivity | contradiction].
    + rewrite (PUT_run _ _ _ _ _ _ _ Hws), Hacc. cbn zeta.
      do 2 eexists. split; [reflexivity |].
      intros _. exists u, ws. destruct (Hfound _ _ _ _ Hws). auto.
Qed.

End LinkReadFacts.

(** ** Creating, reading, updating and deleting environments *)

Module EnvironmentFacts.

Import WorkspaceEnvironments LinkRuns LinkFacts MoreRuns TrimFacts LinkReadFacts.

Section WithHost.

Context `{host : JsonHost}.

Import EnvironmentUpdate.

Lemma name_missing_false (f : Field) :
  EnvironmentCreate.name_missing f = false ->
  exists s, f = Str s /\ trim s <> [].
Proof.
  destruct f as [| | s]; cbn; try discriminate.
  intros H. apply orb_false_iff in H as [_ H]. apply Z.eqb_neq in H.
  exists s. split; [reflexivity |]. intros Heq. rewrite Heq in H. apply H. reflexivity.
Qed.

Lemma parse_variables_status (v : EnvironmentCreate.CreateVariables) (bad : Response) :
  EnvironmentCreate.parse_variables v = inl bad -> status bad = 400.
Proof.
  unfold EnvironmentCreate.parse_variables.
  destruct (EnvironmentCreate.variables_truthy v); [| discriminate].
  destruct v as [| | s | o | b]; try discriminate.
  destruct (JSON_parse s); [discriminate |]. intros [= <-]. reflexivity.
Qed.

(** X7.  Creating an environment never raises.  It is answered 201 only
    for an authenticated caller; the created row is then appended to the
    environment table, belongs to the caller, and its name is not empty
    and has no white space around it.  Any other answer leaves the store
    as it was. *)
Theorem created_environment_is_well_formed newId session request_json w :
  exists resp w',
    EnvironmentCreate.POST newId session request_json w = (Returns resp, w') /\
    ((status resp = 201 /\
      exists userId row,
        session = Some userId /\
        body resp = EnvironmentBody row /\
        env_id row = newId /\ env_userId row = userId /\
        env_name row <> [] /\ trim (env_name row) = env_name row /\
        store w' = with_environment (store w) row) \/
     (status resp <> 201 /\ store w' = store w)).
Proof.
  destruct w as [db evs].
  unfold EnvironmentCreate.POST, EnvironmentCreate.environment_create. run_monad.
  destruct session as [userId |].
  2: { do 2 eexists. split; [reflexivity |]. right. split; [discriminate | reflexivity]. }
  destruct request_json as [b | e].
  2: { do 2 eexists. split; [reflexivity |]. right. split; [discriminate | reflexivity]. }
  destruct (EnvironmentCreate.name_missing (EnvironmentCreate.name b)) eqn:Hname.
  { do 2 eexists. split; [reflexivity |]. right. split; [discriminate | reflexivity]. }
  destruct (EnvironmentCreate.parse_variables (EnvironmentCreate.variables b))
    as [bad | parsed] eqn:Hparse.
  { do 2 eexists. split; [reflexivity |]. right.
    rewrite (parse_variables_status _ _ Hparse). split; [discriminate | reflexivity]. }
  apply name_missing_false in Hname as (s & -> & Hne).
  do 2 eexists. split; [reflexivity |]. left. split; [reflexivity |].
  do 2 eexists. split; [reflexivity |]. split; [reflexivity |].
  cbn [env_id env_userId env_name store].
  repeat split; [exact Hne | apply trim_idempotent].
Qed.

(** X8.  A variables text that [JSON.parse] rejects is answered 400 by
    the creation and by the update before anything is written or
    synced. *)
Theorem invalid_variables_text_is_rejected (s : jsstring) (e : JsError) :
  JSON_parse s = Throws e ->
  s <> [] ->
  (forall newId userId name description w,
     EnvironmentCreate.name_missing name = false ->
     EnvironmentCreate.POST newId (Some userId)
       (Returns {| EnvironmentCreate.name := name;
                   EnvironmentCreate.description := description;
                   EnvironmentCreate.variables := EnvironmentCreate.VarsString s |}) w
     = (Returns (json_status (ErrorBody "Invalid variables format") 400), w)) /\
  (forall sync userId envId name description w env,
     environment_find (store w) envId userId = Some env ->
     EnvironmentUpdate.PUT sync (Some userId) envId
       (Returns {| name := name; description := description; variables := VarString s |}) w
     = (Returns (json_status (ErrorBody "Invalid variables format") 400), w)).
Proof.
  intros Hparse Hne. split.
  - intros newId userId name description [db evs] Hname.
    unfold EnvironmentCreate.POST. run_monad.
    cbn [EnvironmentCreate.name EnvironmentCreate.variables]. rewrite Hname.
    unfold EnvironmentCreate.parse_variables. cbn [EnvironmentCreate.variables_truthy].
    destruct s as [| c s]; [congruence |]. cbn [truthy]. rewrite Hparse. reflexivity.
  - intros sync userId envId name description [db evs] env Hfind.
    cbn [store] in Hfind. unfold EnvironmentUpdate.PUT. run_monad.
    rewrite Hfind. cbn [variables parse_variables_field]. rewrite Hparse. reflexivity.
Qed.

Lemma environment_update_cases session envId request_json db evs :
  (exists resp evs',
     status resp <> 200 /\
     forall sync,
       EnvironmentUpdate.PUT sync session envId request_json {| store := db; trace := evs |}
       = (Returns resp, {| store := db; trace := evs ++ evs' |})) \/
  (exists userId b existing parsed data row,
     session = Some userId /\ request_json = Returns b /\
     environment_find db envId userId = Some existing /\
     update_data b parsed = Returns data /\
     List.find (fun e => bool_decide (env_id e = envId)) (environments db) = Some row /\
     forall sync,
       EnvironmentUpdate.PUT sync session envId request_json {| store := db; trace := evs |}
       = (Returns (json (EnvironmentBody (data row))),
          {| store := updated_store db envId data;
             trace := evs ++ linked_sync_events sync (linked_workspaces db envId) (data row) |})).
Proof.
  destruct session as [userId |].
  2: { left. exists (json_status (ErrorBody "Unauthorized") 401), [].
       rewrite app_nil_r. split; [discriminate | reflexivity]. }
  destruct request_json as [b | e].
  2: { left. exists (json_status (ErrorBody "Internal server error") 500), [ConsoleError e].
       split; [discriminate | reflexivity]. }
  destruct (environment_find db envId userId) as [existing |] eqn:Hfind.
  2: { left. exists (json_status (ErrorBody "Environment not found") 404), [].
       rewrite app_nil_r. split; [discriminate |].
       intros sync. unfold EnvironmentUpdate.PUT. run_monad. rewrite Hfind. reflexivity. }
  destruct (parse_variables_field (variables b)) as [bad | parsed] eqn:Hparse.
  { left. exists bad, []. rewrite app_nil_r. split.
    - destruct (variables b) as [| s | o |]; cbn in Hparse; try discriminate.
      destruct (JSON_parse s); [discriminate |].
      injection Hparse as <-. discriminate.
    - intros sync. unfold EnvironmentUpdate.PUT. run_monad.
      rewrite Hfind, Hparse. reflexivity. }
  destruct (update_data b parsed) as [data | e] eqn:Hdata.
  2: { left. exists (json_status (ErrorBody "Internal server error") 500), [ConsoleError e].
       split; [discriminate |].
       intros sync. unfold EnvironmentUpdate.PUT. run_monad.
       rewrite Hfind, Hparse, Hdata. reflexivity. }
  destruct (List.find (fun e => bool_decide (env_id e = envId)) (environments db))
    as [row |] eqn:Hrow.
  2: { left. exists (json_status (ErrorBody "Internal server error") 500),
         [ConsoleError RequestError].
       split; [discriminate |].
       intros sync. unfold EnvironmentUpdate.PUT, environment_update. run_monad.
       rewrite Hfind, Hparse, Hdata. cbn [store trace]. rewrite Hrow. reflexivity. }
  right. exists userId, b, existing, parsed, data, row.
  repeat (split; [first [reflexivity | assumption] |]).
  intros sync. unfold EnvironmentUpdate.PUT, environment_update. run_monad.
  rewrite Hfind, Hparse, Hdata. cbn [store trace]. rewrite Hrow. cbn [store trace].
  rewrite SyncFacts.sync_linked_run. unfold extend, updated_store. cbn [store trace].
  reflexivity.
Qed.

Lemma fmap_map_invariant {B} (g : Environment -> B) (f : Environment -> Environment)
    (l : list Environment) :
  (forall e, g (f e) = g e) -> g <$> map f l = g <$> l.
Proof.
  intros H. induction l as [| e l IH]; [reflexivity |].
  simpl. rewrite H. f_equal. exact IH.
Qed.

Lemma update_data_identity (b : UpdateBody) parsed data (e : Environment) :
  update_data b parsed = Returns data ->
  env_id (data e) = env_id e /\ env_userId (data e) = env_userId e.
Proof.
  unfold update_data. unfold mbind, Outcome_bind, mret, Outcome_ret.
  destruct (name_data (name b)); [| discriminate].
  intros [= <-]. split; reflexivity.
Qed.

(** X9.  Whatever its outcome, an environment update changes neither
    the id nor the owner of any row of the environment table, and it
    changes no workspace and no link. *)
Theorem update_keeps_ids_and_owners sync session envId request_json w :
  let w' := snd (EnvironmentUpdate.PUT sync session envId request_json w) in
  env_id <$> environments (store w') = env_id <$> environments (store w) /\
  env_userId <$> environments (store w') = env_userId <$> environments (store w) /\
  workspaces (store w') = workspaces (store w) /\
  workspaceEnvironments (store w') = workspaceEnvironments (store w).
Proof.
  destruct w as [db evs]. cbn zeta.
  destruct (environment_update_cases session envId request_json db evs)
    as [(resp & evs' & _ & Hrun)
       | (userId & b & existing & parsed & data & row & _ & _ & _ & Hdata & _ & Hrun)];
    rewrite Hrun; cbn [snd store]; [repeat split |].
  unfold updated_store. cbn [environments workspaces workspaceEnvironments].
  split; [| split; [| split; reflexivity]].
  - apply fmap_map_invariant. intros e.
    destruct (bool_decide (env_id e = envId)); [| reflexivity].
    apply (update_data_identity b parsed data e Hdata).
  - apply fmap_map_invariant. intros e.
    destruct (bool_decide (env_id e = envId)); [| reflexivity].
    apply (update_data_identity b parsed data e Hdata).
Qed.

Lemma sync_calls_linked sync (linked : list Workspace) (updated : Environment) :
  sync_calls (linked_sync_events sync linked updated)
  = map (fun ws => (ws_id ws, [updated])) (running linked).
Proof.
  unfold running, sync_calls, linked_sync_events.
  induction linked as [| ws linked IH]; [reflexivity |].
  cbn [flat_map]. rewrite omap_app, IH, filter_cons.
  destruct (decide (ws_status ws = js "running")) as [Hrun | Hstop].
  - rewrite (bool_decide_eq_true_2 _ Hrun). cbn [map].
    destruct (sync (ws_id ws) [updated]) as [[] | e]; reflexivity.
  - rewrite (bool_decide_eq_false_2 _ Hstop). reflexivity.
Qed.

(** X10.  A successful environment update calls the sync once for each
    running workspace linked to the environment, in the order of the
    links, each time with the updated environment alone; workspaces that
    are not running are not synced. *)
Theorem update_syncs_running_linked_workspaces
    sync userId envId request_json db resp w' :
  EnvironmentUpdate.PUT sync (Some userId) envId request_json (fresh db) = (Returns resp, w') ->
  status resp = 200 ->
  exists updated,
    body resp = EnvironmentBody updated /\
    sync_calls (trace w')
    = map (fun ws => (ws_id ws, [updated])) (running (linked_workspaces db envId)).
Proof.
  intros Hrun Hok. unfold fresh in Hrun.
  destruct (environment_update_cases (Some userId) envId request_json db [])
    as [(resp0 & evs' & Hbad & Hrun0)
       | (u & b & existing & parsed & data & row & _ & _ & _ & _ & _ & Hrun0)];
    rewrite Hrun0 in Hrun; injection Hrun as <- <-.
  - contradiction.
  - exists (data row). split; [reflexivity |]. cbn [trace app].
    apply sync_calls_linked.
Qed.

Lemma found_environment (db : Db) (envId userId : Id) (env : Environment) :
  environment_find db envId userId = Some env ->
  env ∈ environments db /\ env_id env = envId /\ env_userId env = userId.
Proof.
  intros H. apply find_some in H as [Hin Hb]. apply bool_decide_eq_true in Hb.
  rewrite list_elem_of_In. tauto.
Qed.

Lemma not_found_environment (db : Db) (envId userId : Id) (env : Environment) :
  environment_find db envId userId = None ->
  env ∈ environments db -> env_id env = envId -> env_userId env <> userId.
Proof.
  intros H Hin Hid Huser. apply list_elem_of_In in Hin.
  pose proof (find_none _ _ H _ Hin) as Hb. cbn in Hb.
  apply bool_decide_eq_false in Hb. tauto.
Qed.

(** X11.  With environment ids unique in their table, no request of a
    caller (creating, updating or deleting an environment, or updating
    the links of a workspace) changes or removes an environment that
    belongs to someone else. *)
Theorem other_users_environments_untouched userId w (other : Environment) :
  environment_ids_unique (store w) ->
  other ∈ environments (store w) ->
  env_userId other <> userId ->
  (forall newId request_json,
     other ∈ environments
               (store (snd (EnvironmentCreate.POST newId (Some userId) request_json w)))) /\
  (forall sync envId request_json,
     other ∈ environments
               (store (snd (EnvironmentUpdate.PUT sync (Some userId) envId request_json w)))) /\
  (forall on_delete envId,
     other ∈ environments
               (store (snd (EnvironmentDetail.DELETE on_delete (Some userId) envId w)))) /\
  (forall sync wsId request_json,
     other ∈ environments
               (store (snd (WorkspaceEnvironments.PUT sync (Some userId) wsId request_json w)))).
Proof.
  intros Hpk Hin Hother. destruct w as [db evs]. cbn [store] in *.
  assert (Hid : forall envId existing,
            environment_find db envId userId = Some existing -> env_id other <> envId).
  { intros envId existing Hfind Heq.
    apply found_environment in Hfind as (Hin' & Hid' & Huser).
    apply Hother. rewrite <- Huser. f_equal.
    apply (unique_row db other existing Hpk Hin Hin'). congruence. }
  split; [| split; [| split]].
  - intros newId request_json.
    destruct (created_environment_is_well_formed newId (Some userId) request_json
                {| store := db; trace := evs |})
      as (resp & w' & Hrun & [(_ & u & row & _ & _ & _ & _ & _ & _ & Hst) | (_ & Hst)]);
      rewrite Hrun; cbn [snd]; rewrite Hst; cbn [store]; [| exact Hin].
    unfold with_environment. cbn [environments]. apply elem_of_app. left. exact Hin.
  - intros sync envId request_json.
    destruct (environment_update_cases (Some userId) envId request_json db evs)
      as [(resp & evs' & _ & Hrun)
         | (u & b & existing & parsed & data & row & [= <-] & _ & Hfind & _ & _ & Hrun)];
      rewrite Hrun; cbn [snd store]; [exact Hin |].
    unfold updated_store. cbn [environments].
    apply list_elem_of_fmap. exists other. split; [| exact Hin].
    rewrite bool_decide_eq_false_2; [reflexivity | exact (Hid _ _ Hfind)].
  - intros on_delete envId. unfold EnvironmentDetail.DELETE. run_monad.
    destruct (environment_find db envId userId) as [existing |] eqn:Hfind;
      cbn [snd store]; [| exact Hin].
    unfold EnvironmentDetail.environment_delete. cbn [environments].
    apply list_elem_of_filter. split; [exact (Hid _ _ Hfind) | exact Hin].
  - intros sync wsId request_json.
    destruct (PUT_outcome (Some userId) wsId request_json db evs)
      as [(resp & evs' & _ & _ & Hrun) | (u & ids & ws & [= <-] & -> & Hws & Hacc)].
    + rewrite Hrun. exact Hin.
    + rewrite (PUT_run _ _ _ _ _ _ _ Hws), Hacc. exact Hin.
Qed.

(** X12.  For an environment that is not the caller's (or does not
    exist), the read and the delete of one environment are answered 404
    and the world stays as it was; so is the update when the request body
    can be read.  The update reads the body before it looks the
    environment up: with an unreadable body it is answered 500, the
    error is logged and the store stays as it was. *)
Theorem foreign_environment_is_not_found userId envId w :
  environment_find (store w) envId userId = None ->
  EnvironmentDetail.GET (Some userId) envId w
  = (Returns {| EnvironmentDetail.reply_status := 404;
                EnvironmentDetail.reply_body :=
                  EnvironmentDetail.DetailError "Environment not found" |}, w) /\
  (forall on_delete,
     EnvironmentDetail.DELETE on_delete (Some userId) envId w
     = (Returns {| EnvironmentDetail.reply_status := 404;
                   EnvironmentDetail.reply_body :=
                     EnvironmentDetail.DetailError "Environment not found" |}, w)) /\
  (forall sync b,
     EnvironmentUpdate.PUT sync (Some userId) envId (Returns b) w
     = (Returns (json_status (ErrorBody "Environment not found") 404), w)) /\
  (forall sync e,
     EnvironmentUpdate.PUT sync (Some userId) envId (Throws e) w
     = (Returns (json_status (ErrorBody "Internal server error") 500),
        extend w [ConsoleError e])).
Proof.
  intros Hfind. destruct w as [db evs]. cbn [store] in *.
  split; [| split; [| split]].
  - unfold EnvironmentDetail.GET. run_monad. rewrite Hfind. reflexivity.
  - intros on_delete. unfold EnvironmentDetail.DELETE. run_monad. rewrite Hfind. reflexivity.
  - intros sync b. unfold EnvironmentUpdate.PUT. run_monad. rewrite Hfind. reflexivity.
  - intros sync e. reflexivity.
Qed.

End WithHost.

(** X13.  Whatever the store does to the links of a deleted
    environment: after a successful delete the environment table is the
    old one without the rows of that id and the workspaces are as
    before; reading the environment is then answered 404 for every
    caller (401 without a session), and deleting it again is answered
    404 and changes nothing. *)
Theorem deleted_environment_is_gone on_delete userId envId db resp w' :
  EnvironmentDetail.DELETE on_delete (Some userId) envId (fresh db) = (Returns resp, w') ->
  EnvironmentDetail.reply_status resp = 200 ->
  environments (store w') = filter (fun e => env_id e <> envId) (environments db) /\
  workspaces (store w') = workspaces db /\
  (forall session,
     exists reply,
       EnvironmentDetail.GET session envId w' = (Returns reply, w') /\
       (EnvironmentDetail.reply_status reply = 404 \/
        EnvironmentDetail.reply_status reply = 401)) /\
  (forall on_delete' caller,
     EnvironmentDetail.DELETE on_delete' (Some caller) envId w'
     = (Returns {| EnvironmentDetail.reply_status := 404;
                   EnvironmentDetail.reply_body :=
                     EnvironmentDetail.DetailError "Environment not found" |}, w')).
Proof.
  unfold EnvironmentDetail.DELETE at 1, fresh. run_monad.
  destruct (environment_find db envId userId) as [existing |] eqn:Hfind;
    intros [= <- <-]; [intros _ | discriminate].
  cbn [store].
  assert (Hgone : forall caller,
            environment_find (EnvironmentDetail.environment_delete on_delete db envId)
              envId caller = None).
  { intros caller.
    destruct (environment_find (EnvironmentDetail.environment_delete on_delete db envId)
                envId caller) as [env |] eqn:Hagain; [| reflexivity].
    exfalso. apply found_environment in Hagain as (Hin & Hid & _).
    unfold EnvironmentDetail.environment_delete in Hin. cbn [environments] in Hin.
    apply list_elem_of_filter in Hin as [Hne _]. contradiction. }
  split; [reflexivity |]. split; [reflexivity |]. split.
  - intros session. unfold EnvironmentDetail.GET. run_monad.
    destruct session as [caller |]; [| eexists; split; [reflexivity | right; reflexivity]].
    cbn [store]. rewrite Hgone. eexists. split; [reflexivity | left; reflexivity].
  - intros on_delete' caller. unfold EnvironmentDetail.DELETE. run_monad.
    cbn [store]. rewrite Hgone. reflexivity.
Qed.

Lemma deleted_environment_witness :
  let w' := fresh (EnvironmentDetail.environment_delete MoreExamples.cascade
                     Examples.links_db (js "env1")) in
  environments (store w')
  = filter (fun e => env_id e <> js "env1") (environments Examples.links_db) /\
  workspaces (store w') = workspaces Examples.links_db /\
  (forall session,
     exists reply,
       EnvironmentDetail.GET session (js "env1") w' = (Returns reply, w') /\
       (EnvironmentDetail.reply_status reply = 404 \/
        EnvironmentDetail.reply_status reply = 401)) /\
  (forall on_delete' caller,
     EnvironmentDetail.DELETE on_delete' (Some caller) (js "env1") w'
     = (Returns {| EnvironmentDetail.reply_status := 404;
                   EnvironmentDetail.reply_body :=
                     EnvironmentDetail.DetailError "Environment not found" |}, w')).
Proof.
  intros w'.
  apply (deleted_environment_is_gone MoreExamples.cascade Examples.alice (js "env1")
           Examples.links_db
           {| EnvironmentDetail.reply_status := 200;
              EnvironmentDetail.reply_body := EnvironmentDetail.Success |} w').
  - reflexivity.
  - reflexivity.
Defined.

Lemma other_users_witness :
  (forall newId request_json,
     Examples.env3 ∈ environments
       (store (snd (@EnvironmentCreate.POST Examples.host_of_empty_object newId
                      (Some Examples.alice) request_json (fresh Examples.links_db))))) /\
  (forall sync envId request_json,
     Examples.env3 ∈ environments
       (store (snd (@EnvironmentUpdate.PUT Examples.host_of_empty_object sync
                      (Some Examples.alice) envId request_json (fresh Examples.links_db))))) /\
  (forall on_delete envId,
     Examples.env3 ∈ environments
       (store (snd (EnvironmentDetail.DELETE on_delete (Some Examples.alice) envId
                      (fresh Examples.links_db))))) /\
  (forall sync wsId request_json,
     Examples.env3 ∈ environments
       (store (snd (WorkspaceEnvironments.PUT sync (Some Examples.alice) wsId request_json
                      (fresh Examples.links_db))))).
Proof.
  apply (@other_users_environments_untouched Examples.host_of_empty_object
           Examples.alice (fresh Examples.links_db) Examples.env3).
  - unfold environment_ids_unique. compute_done.
  - compute_done.
  - discriminate.
Defined.

Lemma foreign_environment_witness :
  EnvironmentDetail.GET (Some Examples.alice) (js "env3") (fresh Examples.links_db)
  = (Returns {| EnvironmentDetail.reply_status := 404;
                EnvironmentDetail.reply_body :=
                  EnvironmentDetail.DetailError "Environment not found" |},
     fresh Examples.links_db) /\
  (forall on_delete,
     EnvironmentDetail.DELETE on_delete (Some Examples.alice) (js "env3")
       (fresh Examples.links_db)
     = (Returns {| EnvironmentDetail.reply_status := 404;
                   EnvironmentDetail.reply_body :=
                     EnvironmentDetail.DetailError "Environment not found" |},
        fresh Examples.links_db)) /\
  (forall sync b,
     @EnvironmentUpdate.PUT Examples.host_of_empty_object sync (Some Examples.alice)
       (js "env3") (Returns b) (fresh Examples.links_db)
     = (Returns (json_status (ErrorBody "Environment not found") 404),
        fresh Examples.links_db)) /\
  (forall sync e,
     @EnvironmentUpdate.PUT Examples.host_of_empty_object sync (Some Examples.alice)
       (js "env3") (Throws e) (fresh Examples.links_db)
     = (Returns (json_status (ErrorBody "Internal server error") 500),
        extend (fresh Examples.links_db) [ConsoleError e])).
Proof.
  apply (@foreign_environment_is_not_found Examples.host_of_empty_object
           Examples.alice (js "env3") (fresh Examples.links_db)).
  reflexivity.
Defined.

Lemma update_syncs_witness :
  let renamed :=
    {| env_id := js "env1"; env_userId := Examples.alice; env_name := js "base2";
       env_description := None; env_variables := js "{}" |} in
  exists updated,
    body (json (EnvironmentBody renamed)) = EnvironmentBody updated /\
    sync_calls [SyncCall (js "ws1") [renamed];
                ConsoleError (EngineError "container not running")]
    = map (fun ws => (ws_id ws, [updated]))
        (running (EnvironmentUpdate.linked_workspaces Examples.links_db (js "env1"))).
Proof.
  intros renamed.
  apply (@update_syncs_running_linked_workspaces Examples.host_of_empty_object
           sync_failing Examples.alice (js "env1")
           (Returns {| EnvironmentUpdate.name := EnvironmentUpdate.Str (js "  base2 ");
                       EnvironmentUpdate.description := EnvironmentUpdate.Undefined;
                       EnvironmentUpdate.variables := EnvironmentUpdate.VarString (js "{}") |})
           Examples.links_db (json (EnvironmentBody renamed))
           {| store := {| workspaces := [Examples.ws1];
                          environments := [renamed; Examples.env2; Examples.env3];
                          workspaceEnvironments := [link (js "ws1") (js "env1")] |};
              trace := [SyncCall (js "ws1") [renamed];
                        ConsoleError (EngineError "container not running")] |}).
  - reflexivity.
  - reflexivity.
Defined.

Lemma invalid_variables_witness :
  (forall newId userId name description w,
     @EnvironmentCreate.name_missing name = false ->
     @EnvironmentCreate.POST Examples.host_of_empty_object newId (Some userId)
       (Returns {| EnvironmentCreate.name := name;
                   EnvironmentCreate.description := description;
                   EnvironmentCreate.variables := EnvironmentCreate.VarsString (js "{") |}) w
     = (Returns (json_status (ErrorBody "Invalid variables format") 400), w)) /\
  (forall sync userId envId name description w env,
     environment_find (store w) envId userId = Some env ->
     @EnvironmentUpdate.PUT Examples.host_of_empty_object sync (Some userId) envId
       (Returns {| EnvironmentUpdate.name := name;
                   EnvironmentUpdate.description := description;
                   EnvironmentUpdate.variables := EnvironmentUpdate.VarString (js "{") |}) w
     = (Returns (json_status (ErrorBody "Invalid variables format") 400), w)).
Proof.
  apply (@invalid_variables_text_is_rejected Examples.host_of_empty_object
           (js "{") SyntaxError).
  - reflexivity.
  - discriminate.
Defined.

End EnvironmentFacts.

(** ** Sync errors *)

Module SyncClaims.

Import WorkspaceEnvironments LinkRuns LinkFacts MoreRuns LinkReadFacts.






End SyncClaims.

(** ** The variable editor *)

Module EditorFacts.

Import Consumers VariableEditor TrimFacts MoreRuns.

Lemma record_get_set (k k' v : jsstring) (obj : JsRecord) :
  record_get k' (record_set k v obj) =
  if bool_decide (k' = k) then Some v else record_get k' obj.
Proof.
  induction obj as [| [k0 v0] obj IH]; cbn [record_set record_get].
  - destruct (bool_decide_reflect (k = k')) as [-> | Hne].
    + rewrite bool_decide_eq_true_2 by reflexivity. reflexivity.
    + rewrite bool_decide_eq_false_2 by congruence. reflexivity.
  - destruct (bool_decide_reflect (k0 = k)) as [-> | Hne]; cbn [record_get].
    + destruct (bool_decide_reflect (k = k')) as [-> | Hne'].
      * rewrite bool_decide_eq_true_2 by reflexivity. reflexivity.
      * rewrite bool_decide_eq_false_2 by congruence. reflexivity.
    + destruct (bool_decide_reflect (k0 = k')) as [-> | Hne'].
      * rewrite bool_decide_eq_false_2 by congruence. reflexivity.
      * exact IH.
Qed.

Lemma record_set_keys (k v : jsstring) (obj : JsRecord) :
  obj.*1 ⊆ (record_set k v obj).*1 /\
  (forall k', k' ∈ (record_set k v obj).*1 -> k' = k \/ k' ∈ obj.*1) /\
  (NoDup obj.*1 -> NoDup (record_set k v obj).*1).
Proof.
  induction obj as [| [k0 v0] obj (IHsub & IHin & IHnd)]; cbn [record_set].
  - split; [intros x Hx; inversion Hx |]. split.
    + intros k' Hk'. cbn in Hk'. apply list_elem_of_singleton in Hk'. auto.
    + intros _. cbn. apply NoDup_singleton.
  - destruct (bool_decide_reflect (k0 = k)) as [-> | Hne]; cbn [fmap list_fmap fst].
    + split; [intros x Hx; exact Hx |]. split; [intros k' Hk'; right; exact Hk' |].
      intros H; exact H.
    + split; [| split].
      * intros x Hx. apply elem_of_cons in Hx as [-> | Hx];
          [apply list_elem_of_here | apply list_elem_of_further, IHsub, Hx].
      * intros k' Hk'. apply elem_of_cons in Hk' as [-> | Hk'].
        -- right. apply list_elem_of_here.
        -- destruct (IHin _ Hk') as [-> | Hin]; [left; reflexivity |].
           right. apply list_elem_of_further, Hin.
      * intros Hnd. apply NoDup_cons in Hnd as [Hfresh Hnd].
        apply NoDup_cons. split; [| apply IHnd, Hnd].
        intros Hin. destruct (IHin _ Hin) as [-> | Hin']; [congruence | contradiction].
Qed.

Lemma variables_object_snoc (entries : list VariableEntry) (entry : VariableEntry) :
  variables_object (entries ++ [entry]) =
  if truthy (trim (key entry))
  then assign (trim (key entry)) (value entry) (variables_object entries)
  else variables_object entries.
Proof. unfold variables_object. rewrite foldl_app. reflexivity. Qed.

Lemma truthy_nonempty (s : jsstring) : truthy s = true <-> s <> [].
Proof. destruct s; cbn; split; congruence. Qed.

(** X14.  The object that [stringifyVariables] serialises has pairwise
    distinct keys, none of them empty or [__proto__], each without white
    space around it; the value of a key is the value of the last row
    whose trimmed key it is, and a key is absent exactly when no row
    sets it (rows with a blank key or the key [__proto__] set nothing). *)
Theorem variables_object_last_row_wins (entries : list VariableEntry) :
  NoDup (variables_object entries).*1 /\
  Forall (fun k => k <> [] /\ k <> js "__proto__" /\ trim k = k)
    (variables_object entries).*1 /\
  forall k,
    match record_get k (variables_object entries) with
    | Some v =>
        exists before entry after,
          entries = before ++ entry :: after /\
          sets entry k /\ value entry = v /\
          Forall (fun later => ~ sets later k) after
    | None => Forall (fun entry => ~ sets entry k) entries
    end.
Proof.
  induction entries as [| entry entries (IHnd & IHkeys & IHget)] using rev_ind.
  - split; [constructor |]. split; [constructor |].
    intros k. cbn. constructor.
  - rewrite variables_object_snoc.
    assert (Hskip : ~ (exists k, sets entry k) ->
              NoDup (variables_object entries).*1 /\
              Forall (fun k => k <> [] /\ k <> js "__proto__" /\ trim k = k)
                (variables_object entries).*1 /\
              forall k,
                match record_get k (variables_object entries) with
                | Some v =>
                    exists before entry0 after,
                      entries ++ [entry] = before ++ entry0 :: after /\
                      sets entry0 k /\ value entry0 = v /\
                      Forall (fun later => ~ sets later k) after
                | None => Forall (fun entry0 => ~ sets entry0 k) (entries ++ [entry])
                end).
    { intros Hnot. split; [exact IHnd |]. split; [exact IHkeys |].
      intros k. specialize (IHget k).
      assert (Hk : ~ sets entry k) by (intros H; apply Hnot; eauto).
      destruct (record_get k (variables_object entries)) as [v |].
      - destruct IHget as (before & e & after & -> & Hsets & Hval & Hafter).
        exists before, e, (after ++ [entry]).
        split; [rewrite <- app_assoc; reflexivity |].
        split; [exact Hsets |]. split; [exact Hval |].
        apply Forall_app. split; [exact Hafter | constructor; [exact Hk | constructor]].
      - apply Forall_app. split; [exact IHget | constructor; [exact Hk | constructor]]. }
    destruct (truthy (trim (key entry))) eqn:Htruthy.
    2: { apply Hskip. intros (k & <- & Hne & _).
         destruct (trim (key entry)); [contradiction | discriminate]. }
    apply truthy_nonempty in Htruthy. unfold assign.
    destruct (bool_decide_reflect (trim (key entry) = js "__proto__")) as [Hproto | Hproto].
    { apply Hskip. intros (k & <- & _ & Hne). contradiction. }
    destruct (record_set_keys (trim (key entry)) (value entry) (variables_object entries))
      as (_ & Hin & Hnd).
    split; [apply Hnd, IHnd |]. split.
    + apply Forall_forall. intros k Hk. destruct (Hin _ Hk) as [-> | Hold].
      * split; [exact Htruthy |]. split; [exact Hproto | apply trim_idempotent].
      * rewrite Forall_forall in IHkeys. apply IHkeys, Hold.
    + intros k. rewrite record_get_set.
      destruct (bool_decide_reflect (k = trim (key entry))) as [-> | Hne].
      * exists entries, entry, []. split; [reflexivity |].
        split; [split; [reflexivity | split; assumption] |].
        split; [reflexivity | constructor].
      * assert (Hk : ~ sets entry k) by (intros (Hkey & _); congruence).
        specialize (IHget k).
        destruct (record_get k (variables_object entries)) as [v |].
        -- destruct IHget as (before & e & after & -> & Hsets & Hval & Hafter).
           exists before, e, (after ++ [entry]).
           split; [rewrite <- app_assoc; reflexivity |].
           split; [exact Hsets |]. split; [exact Hval |].
           apply Forall_app. split; [exact Hafter | constructor; [exact Hk | constructor]].
        -- apply Forall_app. split; [exact IHget | constructor; [exact Hk | constructor]].
Qed.

Lemma filter_index_remove {A} (index start : nat) (l : list A) :
  filter_index (fun i => negb (Nat.eqb i index)) start l =
  if decide (start <= index)%nat
  then take (index - start) l ++ drop (S (index - start)) l
  else l.
Proof.
  revert start. induction l as [| x l IH]; intros start; cbn [filter_index].
  - destruct (decide (start <= index)%nat); [| reflexivity].
    rewrite take_nil, drop_nil. reflexivity.
  - rewrite IH. destruct (Nat.eqb_spec start index) as [-> | Hne]; cbn [negb].
    + rewrite Nat.sub_diag. cbn [take drop app].
      destruct (decide (S index <= index)%nat); [lia | ].
      destruct (decide (index <= index)%nat); [reflexivity | lia].
    + destruct (decide (start <= index)%nat) as [Hle | Hgt].
      * destruct (decide (S start <= index)%nat); [| lia].
        replace (index - start)%nat with (S (index - S start)) by lia.
        reflexivity.
      * destruct (decide (S start <= index)%nat); [lia | reflexivity].
Qed.

Lemma variables_object_app_blank (entries more : list VariableEntry) :
  Forall (fun entry => trim (key entry) = []) more ->
  variables_object (entries ++ more) = variables_object entries.
Proof.
  induction more as [| entry more IH] using rev_ind; intros Hall.
  - rewrite app_nil_r. reflexivity.
  - apply Forall_app in Hall as [Hmore Hentry]. inversion Hentry as [| ? ? Hblank _]; subst.
    rewrite app_assoc, variables_object_snoc, Hblank. cbn [truthy]. apply IH, Hmore.
Qed.

(** X15.  Removing the row at an index deletes exactly that row (an index
    past the end removes nothing); a row added and removed again leaves
    the rows as they were; and a freshly added row, whose key is blank,
    does not change what [stringifyVariables] produces. *)
Theorem editor_rows (JSON_stringify_pretty : JsRecord -> jsstring)
    (entries : list VariableEntry) (index : nat) :
  removeVariableEntry index entries = take index entries ++ drop (S index) entries /\
  removeVariableEntry (List.length entries) (addVariableEntry entries) = entries /\
  stringifyVariables JSON_stringify_pretty (addVariableEntry entries)
  = stringifyVariables JSON_stringify_pretty entries.
Proof.
  assert (Hremove : forall i (l : list VariableEntry),
            removeVariableEntry i l = take i l ++ drop (S i) l).
  { intros i l. unfold removeVariableEntry. rewrite filter_index_remove.
    destruct (decide (0 <= i)%nat); [| lia]. rewrite Nat.sub_0_r. reflexivity. }
  split; [apply Hremove |]. split.
  - rewrite Hremove. unfold addVariableEntry.
    rewrite take_app_length, drop_ge by (rewrite length_app; cbn; lia).
    apply app_nil_r.
  - unfold stringifyVariables, addVariableEntry. f_equal.
    apply variables_object_app_blank. constructor; [reflexivity | constructor].
Qed.

End EditorFacts.

(** ** More on the session probe *)

Module ProbeMoreFacts.

Import Probe ProbeRuns PatternFacts ProbeFacts ProbeClaims MoreRuns.

Lemma strategy_events_target eng wsId cmd :
  Forall (fun ev => targets ev (opencode wsId)) (strategy_events eng wsId cmd).
Proof.
  unfold strategy_events. constructor; [reflexivity |].
  destruct (container_exec eng (opencode wsId) cmd); constructor; [reflexivity | constructor].
Qed.

Lemma respond_log (c : jsstring) (w : World) :
  exists text,
    respond c w = (Returns (json (SessionBody (regex_match c))), extend w [ConsoleLog text]).
Proof.
  unfold respond, extend. run_monad.
  destruct (regex_match c); eexists; reflexivity.
Qed.

Ltac solve_targets :=
  repeat (apply Forall_app; split);
  first [assumption | constructor; [exact I | constructor]].

(** X16.  The probe never changes the store.  Without a session, or for
    a workspace that is not the caller's, it makes no engine call and
    writes no log line, and an answer it gives is 401 or 404; otherwise
    every engine call it makes is addressed to the container
    [opencode-<id>] of that workspace, and an answer it gives is 200. *)
Theorem probe_calls_only_the_callers_container eng session wsId w :
  exists evs,
    snd (GET eng session wsId w) = extend w evs /\
    ((exists userId ws,
        session = Some userId /\
        workspace_find (store w) wsId userId = Some ws /\
        Forall (fun ev => targets ev (opencode wsId)) evs /\
        forall resp, fst (GET eng session wsId w) = Returns resp -> status resp = 200) \/
     (evs = [] /\
      forall resp, fst (GET eng session wsId w) = Returns resp ->
                   status resp = 401 \/ status resp = 404)).
Proof.
  destruct session as [userId |].
  2: { exists []. rewrite extend_nil_r. split; [reflexivity |]. right.
       split; [reflexivity |]. intros resp [= <-]. left. reflexivity. }
  destruct (workspace_find (store w) wsId userId) as [ws |] eqn:Hws.
  2: { exists []. rewrite extend_nil_r.
       assert (GET eng (Some userId) wsId w
               = (Returns (json_status (ErrorBody "Workspace not found") 404), w)) as ->.
       { unfold GET. run_monad. rewrite Hws. reflexivity. }
       split; [reflexivity |]. right.
       split; [reflexivity |]. intros resp [= <-]. right. reflexivity. }
  pose proof (strategy_events_target eng wsId SqliteCmd) as H1.
  pose proof (strategy_events_target eng wsId FindCmd) as H2.
  rewrite (GET_run _ _ _ _ _ Hws), discover_run.
  destruct (strategy eng wsId SqliteCmd) as [s | e1].
  - cbn zeta. destruct (needs_fallback s).
    + destruct (strategy eng wsId FindCmd) as [f | e2].
      * destruct (respond_log (candidate s f)
                    (extend (extend w (strategy_events eng wsId SqliteCmd ++ [log_sqlite s]))
                       (strategy_events eng wsId FindCmd ++ [log_find f]))) as [text ->].
        rewrite !extend_extend. eexists. split; [reflexivity |]. left.
        exists userId, ws. split; [reflexivity |]. split; [exact Hws |].
        split; [solve_targets | intros resp [= <-]; reflexivity].
      * rewrite !extend_extend. eexists. split; [reflexivity |]. left.
        exists userId, ws. split; [reflexivity |]. split; [exact Hws |].
        split; [solve_targets | intros resp [= <-]; reflexivity].
    + destruct (respond_log s
                  (extend w (strategy_events eng wsId SqliteCmd ++ [log_sqlite s])))
        as [text ->].
      rewrite !extend_extend. eexists. split; [reflexivity |]. left.
      exists userId, ws. split; [reflexivity |]. split; [exact Hws |].
      split; [solve_targets | intros resp [= <-]; reflexivity].
  - rewrite !extend_extend. eexists. split; [reflexivity |]. left.
    exists userId, ws. split; [reflexivity |]. split; [exact Hws |].
    split; [solve_targets | intros resp [= <-]; reflexivity].
Qed.

(** X17.  A primary answer that begins with [ses_] ends the search: the
    fallback strategy is not run, and the response is what the pattern
    finds in the primary answer, which is [null] when [ses_] is not
    followed by a token character there or later. *)
Theorem prefixed_primary_answer_ends_the_search eng userId wsId w ws (sqliteResult : jsstring) :
  workspace_find (store w) wsId userId = Some ws ->
  strategy eng wsId SqliteCmd = Returns sqliteResult ->
  startsWith ses_ sqliteResult = true ->
  exists text,
    GET eng (Some userId) wsId w =
    (Returns (json (SessionBody (regex_match sqliteResult))),
     extend w (strategy_events eng wsId SqliteCmd
               ++ [log_sqlite sqliteResult; ConsoleLog text])).
Proof.
  intros Hws Hprimary Hprefix.
  rewrite (GET_run _ _ _ _ _ Hws), discover_run, Hprimary. cbn zeta.
  assert (needs_fallback sqliteResult = false) as ->.
  { unfold needs_fallback. rewrite Hprefix.
    destruct sqliteResult; [discriminate | reflexivity]. }
  destruct (respond_log sqliteResult
              (extend w (strategy_events eng wsId SqliteCmd ++ [log_sqlite sqliteResult])))
    as [text ->].
  exists text. rewrite extend_extend, <- app_assoc. reflexivity.
Qed.

Lemma prefixed_primary_witness :
  exists text,
    GET MoreExamples.engine_bare_prefix (Some Examples.alice) (js "ws1") Examples.probe_world =
    (Returns (json (SessionBody (regex_match (js "ses_")))),
     extend Examples.probe_world
       (strategy_events MoreExamples.engine_bare_prefix (js "ws1") SqliteCmd
        ++ [log_sqlite (js "ses_"); ConsoleLog text])).
Proof.
  apply (prefixed_primary_answer_ends_the_search MoreExamples.engine_bare_prefix
           Examples.alice (js "ws1") Examples.probe_world Examples.ws1 (js "ses_")).
  - reflexivity.
  - reflexivity.
  - reflexivity.
Defined.

(** The bare prefix holds no id, the scan would have found one, and the
    probe answers "no session". *)
Example bare_prefix_hides_the_fallback :
  strategy MoreExamples.engine_bare_prefix (js "ws1") FindCmd = Returns (js "ses_ab12") /\
  fst (GET MoreExamples.engine_bare_prefix (Some Examples.alice) (js "ws1") Examples.probe_world)
  = Returns (json (SessionBody None)).
Proof. split; reflexivity. Qed.

Lemma token_run_maximal (s : jsstring) :
  exists rest,
    s = token_run s ++ rest /\
    match rest with
    | c :: _ => is_token_char c = false
    | [] => True
    end.
Proof.
  induction s as [| c s (rest & Hs & Hrest)]; cbn [token_run].
  - exists []. split; [reflexivity | exact I].
  - destruct (is_token_char c) eqn:Hc.
    + exists rest. split; [cbn; congruence | exact Hrest].
    + exists (c :: s). split; [reflexivity | exact Hc].
Qed.

Lemma match_here_longest (s m : jsstring) :
  match_here s = Some m ->
  exists post,
    s = m ++ post /\
    match post with
    | c :: _ => is_token_char c = false
    | [] => True
    end.
Proof.
  unfold match_here. destruct (startsWith ses_ s) eqn:Hs; [| discriminate].
  apply startsWith_prefix in Hs as [rest ->]. rewrite drop_ses_.
  destruct (token_run_maximal rest) as (post & Hrest & Hpost).
  destruct (token_run rest) as [| c run] eqn:Hrun; [discriminate |].
  intros [= <-]. exists post. split; [| exact Hpost].
  rewrite Hrest at 1. reflexivity.
Qed.

Lemma match_here_none (s x rest : jsstring) :
  match_here s = None -> s = x ++ rest -> ~ is_session_id x.
Proof.
  intros Hnone -> Hid. destruct (match_here_complete x rest Hid) as [m Hm]. congruence.
Qed.

Lemma regex_match_leftmost_longest (c m : jsstring) :
  regex_match c = Some m ->
  exists pre post,
    c = pre ++ m ++ post /\
    (forall p1 p2 x rest,
       pre = p1 ++ p2 -> p2 <> [] -> p2 ++ m ++ post = x ++ rest -> ~ is_session_id x) /\
    match post with
    | t :: _ => is_token_char t = false
    | [] => True
    end.
Proof.
  induction c as [| a c IH]; cbn [regex_match]; [discriminate |].
  destruct (match_here (a :: c)) as [m' |] eqn:Hhere.
  - intros [= ->]. destruct (match_here_longest _ _ Hhere) as (post & Hc & Hpost).
    exists [], post. split; [exact Hc |]. split; [| exact Hpost].
    intros p1 p2 x rest Hpre Hne. symmetry in Hpre.
    apply app_eq_nil in Hpre as [_ ->]. contradiction.
  - intros Hm. destruct (IH Hm) as (pre & post & -> & Hleft & Hpost).
    exists (a :: pre), post. split; [reflexivity |]. split; [| exact Hpost].
    intros p1 p2 x rest Hpre Hne Heq.
    destruct p1 as [| a' p1].
    + cbn in Hpre. subst p2. apply (match_here_none _ x rest Hhere). exact Heq.
    + injection Hpre as <- Hpre. exact (Hleft p1 p2 x rest Hpre Hne Heq).
Qed.

(** X18.  When the probe returns an id, it is the leftmost occurrence of
    the session-id form in the candidate string, taken as long as
    possible: no string of that form starts earlier in the candidate,
    and the character after the returned id, if any, is not a token
    character. *)
Theorem probe_returns_leftmost_longest_id (c m : jsstring) (w w' : World) :
  respond c w = (Returns (json (SessionBody (Some m))), w') ->
  exists pre post,
    c = pre ++ m ++ post /\
    is_session_id m /\
    (forall p1 p2 x rest,
       pre = p1 ++ p2 -> p2 <> [] -> p2 ++ m ++ post = x ++ rest -> ~ is_session_id x) /\
    match post with
    | t :: _ => is_token_char t = false
    | [] => True
    end.
Proof.
  intros Hrun. destruct (respond_log c w) as [text Hlog].
  rewrite Hlog in Hrun. injection Hrun as Hm _.
  destruct (regex_match_leftmost_longest c m Hm) as (pre & post & Hc & Hleft & Hpost).
  exists pre, post. split; [exact Hc |].
  split; [apply (regex_match_sound c m Hm) |]. split; assumption.
Qed.

Lemma leftmost_longest_witness :
  exists pre post,
    js "x ses_a ses_bcd!" = pre ++ js "ses_a" ++ post /\
    is_session_id (js "ses_a") /\
    (forall p1 p2 x rest,
       pre = p1 ++ p2 -> p2 <> [] -> p2 ++ js "ses_a" ++ post = x ++ rest ->
       ~ is_session_id x) /\
    match post with
    | t :: _ => is_token_char t = false
    | [] => True
    end.
Proof.
  apply (probe_returns_leftmost_longest_id (js "x ses_a ses_bcd!") (js "ses_a")
           Examples.probe_world
           (extend Examples.probe_world
              [ConsoleLog (js "[opencode-session] Final match: ses_a")])).
  reflexivity.
Defined.

End ProbeMoreFacts.

(** ** The session callback *)

Module AuthFacts.

Import Auth.

Lemma truthy_string_Some (s : option jsstring) :
  truthy_string s = true <-> exists t, s = Some t /\ t <> [].
Proof.
  destruct s as [[| c t] |]; cbn; split; try discriminate.
  - intros (t & [= <-] & H). contradiction.
  - intros _. eexists. split; [reflexivity | discriminate].
  - intros _. reflexivity.
  - intros (t & H & _). discriminate.
Qed.

(** X19.  The session always carries the user's id.  A token handed to
    the session is the access token stored in the account row after the
    callback.  The token endpoint is asked exactly when the row has a
    non-zero expiry time before now and a non-empty refresh token, with
    that refresh token; without an account update the row stays as it
    was (a failed refresh changes nothing), and an update never loses a
    non-empty refresh token nor changes the provider account id. *)
Theorem session_token_is_the_stored_token
    (userId : Id) (account : option Account) (now now' : Z) (refresh : Outcome Tokens) :
  let '(user, account', events) := session_callback userId account now now' refresh in
  id user = userId /\
  (forall t, githubToken user = Some (Some t) ->
             exists a, account' = Some a /\ access_token a = Some t /\
                       githubId user = Some (providerAccountId a)) /\
  (forall r, RefreshRequest r ∈ events <->
             exists a e, account = Some a /\ expires_at a = Some e /\
                         e <> 0 /\ e < now /\ refresh_token a = Some r /\ r <> []) /\
  (AccountUpdate ∉ events -> account' = account) /\
  (forall a a', account = Some a -> account' = Some a' ->
                providerAccountId a' = providerAccountId a /\
                (truthy_string (refresh_token a) = true ->
                 truthy_string (refresh_token a') = true)).
Proof.
  unfold session_callback.
  destruct account as [a |].
  2: { split; [reflexivity |]. split; [discriminate |]. split.
       - intros r. split; [intros H; inversion H | intros (a & e & H & _); discriminate].
       - split; [reflexivity | discriminate]. }
  assert (Hrequest : forall r rest,
            isExpired a now && truthy_string (refresh_token a) = true ->
            (~ (exists ev, ev ∈ rest /\ exists r', ev = RefreshRequest r')) ->
            (RefreshRequest r ∈ RefreshRequest (default [] (refresh_token a)) :: rest <->
             exists a0 e, Some a = Some a0 /\ expires_at a0 = Some e /\
                          e <> 0 /\ e < now /\ refresh_token a0 = Some r /\ r <> [])).
  { intros r rest Hcond Hrest. apply andb_true_iff in Hcond as [Hexp Href].
    unfold isExpired in Hexp. destruct (expires_at a) as [e |] eqn:He; [| discriminate].
    apply andb_true_iff in Hexp as [Hnz Hlt].
    apply negb_true_iff, Z.eqb_neq in Hnz. apply Z.ltb_lt in Hlt.
    apply truthy_string_Some in Href as (t & Ht & Hne). rewrite Ht. cbn [default].
    split.
    - intros H. apply elem_of_cons in H as [[= ->] | H].
      + exists a, e. auto 10.
      + exfalso. apply Hrest. eauto.
    - intros (a0 & e0 & [= <-] & _ & _ & _ & Hr & _).
      assert (r = t) as -> by congruence. apply list_elem_of_here. }
  assert (Hno : forall evs : list AuthEvent,
            (forall ev, ev ∈ evs -> ev = AccountUpdate \/ ev = LogError) ->
            ~ (exists ev, ev ∈ evs /\ exists r', ev = RefreshRequest r')).
  { intros evs Hevs (ev & Hin & r' & ->). destruct (Hevs _ Hin); discriminate. }
  destruct (isExpired a now && truthy_string (refresh_token a)) eqn:Hcond.
  - destruct refresh as [tokens | e].
    + destruct (truthy_string (new_access_token tokens)) eqn:Hnew.
      * split; [reflexivity |]. split.
        { intros t [= Ht]. eexists. split; [reflexivity |]. cbn. auto. }
        split.
        { intros r. apply Hrequest; [reflexivity |]. apply Hno.
          intros ev Hev. apply list_elem_of_singleton in Hev. auto. }
        split.
        { intros H. exfalso. apply H. apply list_elem_of_further, list_elem_of_here. }
        intros a0 a' [= <-] [= <-]. split; [reflexivity |].
        cbn [refresh_token refreshed]. intros Hold.
        destruct (truthy_string (new_refresh_token tokens)) eqn:Hr; assumption.
      * split; [reflexivity |]. split; [discriminate |]. split.
        { intros r. apply Hrequest; [reflexivity |]. apply Hno.
          intros ev Hev. apply list_elem_of_singleton in Hev. auto. }
        split; [reflexivity |].
        intros a0 a' [= <-] [= <-]. auto.
    + split; [reflexivity |]. split; [discriminate |]. split.
      { intros r. apply Hrequest; [reflexivity |]. apply Hno.
        intros ev Hev. apply list_elem_of_singleton in Hev. auto. }
      split; [reflexivity |].
      intros a0 a' [= <-] [= <-]. auto.
  - split; [reflexivity |]. split.
    { intros t [= Ht]. exists a. auto. }
    split.
    { intros r. split; [intros H; inversion H |].
      intros (a0 & e & [= <-] & He & Hnz & Hlt & Hr & Hne).
      exfalso. unfold isExpired in Hcond. rewrite He, Hr in Hcond.
      apply Z.eqb_neq in Hnz. apply Z.ltb_lt in Hlt. rewrite Hnz, Hlt in Hcond.
      cbn in Hcond. destruct r; [contradiction | discriminate]. }
    split; [reflexivity |].
    intros a0 a' [= <-] [= <-]. auto.
Qed.

End AuthFacts.
